(** * XDPoSChain: activation rules, miner extra-data, committee helpers

    A shallow embedding of the parts of the XDPoSChain repository that the
    specification talks about:

    - [Params]: [params/config.go] -- fork predicates, the consensus-version
      switch and the configuration compatibility check;
    - [Miner]: [miner/miner.go] -- the extra-data setter;
    - [XDPoS]: the comparison of signer lists exercised by
      [consensus/XDPoS/XDPoS_test.go];
    - [Aggregator]: the threshold certificate collector of the BFT engine.

    Go's [*big.Int] is an [option Z] ([None] is the nil pointer), [uint64]
    is a [Z] in [0, 2^64) with the wrap-around written out. *)

From stdpp Require Import gmap strings list fin_maps.
From Stdlib Require Import ZArith Lia Permutation.

Local Open Scope Z_scope.

(** ** Machine integers *)

Definition uint64_modulus : Z := 2 ^ 64.

(** Conversion to [uint64] and [uint64] subtraction, both modulo [2^64]. *)
Definition to_uint64 (z : Z) : Z := z mod uint64_modulus.
Definition uint64_sub (a b : Z) : Z := (a - b) mod uint64_modulus.

(** The [Uint64] method of [big.Int]: the low 64 bits of the magnitude. *)
Definition Uint64 (x : Z) : Z := Z.abs x mod uint64_modulus.

(** The [Sign] method of [big.Int]. *)
Definition Sign (x : Z) : Z := Z.sgn x.

(** ** params/config.go *)

Module Params.

Definition ConsensusEngineVersion1 : string := "v1".
Definition ConsensusEngineVersion2 : string := "v2".

(** [isForked]: whether a fork scheduled at block [s] is active at [head];
    a nil schedule or a nil head is never forked. *)
Definition isForked (s head : option Z) : bool :=
  match s, head with
  | Some s', Some head' => s' <=? head'
  | _, _ => false
  end.

Definition configNumEqual (x y : option Z) : bool :=
  match x with
  | None => match y with None => true | Some _ => false end
  | Some x' =>
      match y with
      | None => false
      | Some y' => x' =? y'
      end
  end.

(** [isForkIncompatible]: a fork scheduled at [s1] cannot be rescheduled to
    [s2] because [head] is already past the fork. *)
Definition isForkIncompatible (s1 s2 head : option Z) : bool :=
  (isForked s1 head || isForked s2 head) && negb (configNumEqual s1 s2).

Module ConfigCompatError.
Record t : Type := mk {
  What : string;
  StoredConfig : option Z;
  NewConfig : option Z;
  RewindTo : Z
}.
End ConfigCompatError.

Definition newCompatError (what : string) (storedblock newblock : option Z)
  : ConfigCompatError.t :=
  let rew :=
    match storedblock with
    | None => newblock
    | Some s =>
        match newblock with
        | None => storedblock
        | Some n => if s <? n then storedblock else newblock
        end
    end in
  ConfigCompatError.mk what storedblock newblock
    match rew with
    | Some r => if 0 <? Sign r then uint64_sub (Uint64 r) 1 else 0
    | None => 0
    end.

Module V2.
Record t : Type := mk {
  WaitPeriod : Z;
  MinePeriod : Z;
  SwitchBlock : option Z;
  TimeoutWorkerDuration : Z;
  CertThreshold : Z
}.
End V2.

Module XDPoSConfig.
Record t : Type := mk {
  Period : Z;
  Epoch : Z;
  Reward : Z;
  RewardCheckpoint : Z;
  Gap : Z;
  FoudationWalletAddr : Z;
  WaitPeriod : Z;
  SkipValidation : bool;
  V2 : option V2.t
}.

(** [BlockConsensusVersion]; the result is [None] where the Go code
    dereferences a nil block number ([num.Cmp] on a nil [num]), which the
    short-circuit [&&] only reaches when a switch block is configured. *)
Definition BlockConsensusVersion (c : t) (num : option Z) : option string :=
  match V2 c with
  | None => Some ConsensusEngineVersion1
  | Some v2 =>
      match V2.SwitchBlock v2 with
      | None => Some ConsensusEngineVersion1
      | Some switchBlock =>
          match num with
          | None => None
          | Some n =>
              if n >? switchBlock
              then Some ConsensusEngineVersion2
              else Some ConsensusEngineVersion1
          end
      end
  end.
End XDPoSConfig.

Module CliqueConfig.
Record t : Type := mk { Period : Z; Epoch : Z }.
End CliqueConfig.

Module EthashConfig.
Record t : Type := mk { }.
End EthashConfig.

(** The three gas tables of params/gas_table.go, by the name of the
    variable; their contents are not among the sources. *)
Inductive GasTable : Type :=
| GasTableHomestead
| GasTableEIP150
| GasTableEIP158.

Module Rules.
Record t : Type := mk {
  ChainId : option Z;
  IsHomestead : bool;
  IsEIP150 : bool;
  IsEIP155 : bool;
  IsEIP158 : bool;
  IsByzantium : bool;
  IsConstantinople : bool;
  IsPetersburg : bool;
  IsIstanbul : bool
}.
End Rules.

Module ChainConfig.
Record t : Type := mk {
  ChainId : option Z;
  HomesteadBlock : option Z;
  DAOForkBlock : option Z;
  DAOForkSupport : bool;
  EIP150Block : option Z;
  EIP150Hash : Z;
  EIP155Block : option Z;
  EIP158Block : option Z;
  ByzantiumBlock : option Z;
  ConstantinopleBlock : option Z;
  Ethash : option EthashConfig.t;
  Clique : option CliqueConfig.t;
  XDPoS : option XDPoSConfig.t
}.

Definition IsHomestead (c : t) (num : option Z) : bool :=
  isForked (HomesteadBlock c) num.

Definition IsDAOFork (c : t) (num : option Z) : bool :=
  isForked (DAOForkBlock c) num.

Definition IsEIP150 (c : t) (num : option Z) : bool :=
  isForked (EIP150Block c) num.

Definition IsEIP155 (c : t) (num : option Z) : bool :=
  isForked (EIP155Block c) num.

Definition IsEIP158 (c : t) (num : option Z) : bool :=
  isForked (EIP158Block c) num.

Definition IsByzantium (c : t) (num : option Z) : bool :=
  isForked (ByzantiumBlock c) num.

Definition IsConstantinople (c : t) (num : option Z) : bool :=
  isForked (ConstantinopleBlock c) num.

(** One pass over the fork schedule, in the order of the source; the first
    mismatch found is reported. *)
Definition checkCompatible (c newcfg : t) (head : option Z)
  : option ConfigCompatError.t :=
  if isForkIncompatible (HomesteadBlock c) (HomesteadBlock newcfg) head then
    Some (newCompatError "Homestead fork block"
            (HomesteadBlock c) (HomesteadBlock newcfg))
  else if isForkIncompatible (DAOForkBlock c) (DAOForkBlock newcfg) head then
    Some (newCompatError "DAO fork block"
            (DAOForkBlock c) (DAOForkBlock newcfg))
  else if IsDAOFork c head
          && negb (eqb (DAOForkSupport c) (DAOForkSupport newcfg)) then
    Some (newCompatError "DAO fork support flag"
            (DAOForkBlock c) (DAOForkBlock newcfg))
  else if isForkIncompatible (EIP150Block c) (EIP150Block newcfg) head then
    Some (newCompatError "EIP150 fork block"
            (EIP150Block c) (EIP150Block newcfg))
  else if isForkIncompatible (EIP155Block c) (EIP155Block newcfg) head then
    Some (newCompatError "EIP155 fork block"
            (EIP155Block c) (EIP155Block newcfg))
  else if isForkIncompatible (EIP158Block c) (EIP158Block newcfg) head then
    Some (newCompatError "EIP158 fork block"
            (EIP158Block c) (EIP158Block newcfg))
  else if IsEIP158 c head
          && negb (configNumEqual (ChainId c) (ChainId newcfg)) then
    Some (newCompatError "EIP158 chain ID"
            (EIP158Block c) (EIP158Block newcfg))
  else if isForkIncompatible (ByzantiumBlock c) (ByzantiumBlock newcfg) head then
    Some (newCompatError "Byzantium fork block"
            (ByzantiumBlock c) (ByzantiumBlock newcfg))
  else if isForkIncompatible
            (ConstantinopleBlock c) (ConstantinopleBlock newcfg) head then
    Some (newCompatError "Constantinople fork block"
            (ConstantinopleBlock c) (ConstantinopleBlock newcfg))
  else None.

(** The state of the loop of [CheckCompatible]: the head under test and the
    last conflict kept. *)
Record loop_state : Type := mk_loop_state {
  bhead : Z;
  lasterr : option ConfigCompatError.t
}.

(** The [break] test of the loop for a conflict [err] just found. *)
Definition rewind_repeats (lasterr : option ConfigCompatError.t)
    (err : ConfigCompatError.t) : bool :=
  match lasterr with
  | None => false
  | Some l => ConfigCompatError.RewindTo err =? ConfigCompatError.RewindTo l
  end.

(** One iteration: either the loop breaks and [lasterr] is returned
    ([inr]), or it goes on from the rewind height ([inl]). *)
Definition loop_step (c newcfg : t) (s : loop_state)
  : loop_state + option ConfigCompatError.t :=
  match checkCompatible c newcfg (Some (bhead s)) with
  | None => inr (lasterr s)
  | Some err =>
      if rewind_repeats (lasterr s) err then inr (lasterr s)
      else inl (mk_loop_state (ConfigCompatError.RewindTo err) (Some err))
  end.

(** What a bounded run of the loop gives: the value returned, or nothing
    yet when the bound was too small. *)
Inductive outcome : Type :=
| Returned (err : option ConfigCompatError.t)
| OutOfFuel.

Fixpoint loop (c newcfg : t) (fuel : nat) (s : loop_state) : outcome :=
  match fuel with
  | O => OutOfFuel
  | S fuel' =>
      match loop_step c newcfg s with
      | inr r => Returned r
      | inl s' => loop c newcfg fuel' s'
      end
  end.

(** The conflicts the successive passes of the loop find, in order,
    the one that makes the loop break on a repeated rewind height
    included. *)
Fixpoint found (c newcfg : t) (fuel : nat) (s : loop_state)
  : list ConfigCompatError.t :=
  match fuel with
  | O => []
  | S fuel' =>
      match checkCompatible c newcfg (Some (bhead s)) with
      | None => []
      | Some err =>
          if rewind_repeats (lasterr s) err then [err]
          else err :: found c newcfg fuel'
                        (mk_loop_state (ConfigCompatError.RewindTo err) (Some err))
      end
  end.

(** Iterations that are always enough from [height]: one per height down
    to zero, one for the pass that repeats at zero, one to break. *)
Definition enough_fuel (height : Z) : nat := S (S (Z.to_nat height)).

(** [CheckCompatible], with [bhead] set from the [uint64] height. *)
Definition CheckCompatible (c newcfg : t) (height : Z) : outcome :=
  loop c newcfg (enough_fuel height) (mk_loop_state height None).

(** [c] with its EIP150 activation height replaced. *)
Definition with_EIP150Block (c : t) (b : option Z) : t :=
  mk (ChainId c) (HomesteadBlock c) (DAOForkBlock c) (DAOForkSupport c)
     b (EIP150Hash c) (EIP155Block c) (EIP158Block c)
     (ByzantiumBlock c) (ConstantinopleBlock c)
     (Ethash c) (Clique c) (XDPoS c).

(** [c] with its chain id replaced. *)
Definition with_ChainId (c : t) (id : option Z) : t :=
  mk id (HomesteadBlock c) (DAOForkBlock c) (DAOForkSupport c)
     (EIP150Block c) (EIP150Hash c) (EIP155Block c) (EIP158Block c)
     (ByzantiumBlock c) (ConstantinopleBlock c)
     (Ethash c) (Clique c) (XDPoS c).

(** [c] with its Homestead activation height replaced. *)
Definition with_HomesteadBlock (c : t) (b : option Z) : t :=
  mk (ChainId c) b (DAOForkBlock c) (DAOForkSupport c)
     (EIP150Block c) (EIP150Hash c) (EIP155Block c) (EIP158Block c)
     (ByzantiumBlock c) (ConstantinopleBlock c)
     (Ethash c) (Clique c) (XDPoS c).

(** The lower of two activation heights, an absent one being later than
    any height. *)
Definition lower_height (s1 s2 : option Z) : option Z :=
  match s1, s2 with
  | None, _ => s2
  | _, None => s1
  | Some a, Some b => Some (Z.min a b)
  end.

(** The rewind target the specification describes: one less than the lower
    of the two heights, and zero when that height is not positive. *)
Definition rewind_target (s1 s2 : option Z) : Z :=
  match lower_height s1 s2 with
  | Some l => if 0 <? l then l - 1 else 0
  | None => 0
  end.

(** An activation height that is present and at or before [h]. *)
Definition at_or_before (s : option Z) (h : Z) : Prop :=
  exists a, s = Some a /\ a <= h.

(** The specification's test on one field: the two configurations disagree
    on its height while one of the two heights is at or before [h]. *)
Definition field_incompatible (s1 s2 : option Z) (h : Z) : Prop :=
  s1 <> s2 /\ (at_or_before s1 h \/ at_or_before s2 h).

(** The activation fields compared by [isForkIncompatible], in the order
    [checkCompatible] walks them. *)
Definition forkFields : list (t -> option Z) :=
  [HomesteadBlock; DAOForkBlock; EIP150Block; EIP155Block; EIP158Block;
   ByzantiumBlock; ConstantinopleBlock].

(** What makes one pass of the check at height [h] report a conflict: an
    incompatible activation field, or one of the two settings that are
    compared once their fork is active in the stored configuration. *)
Definition conflict_at (c newcfg : t) (h : Z) : Prop :=
  (exists f, In f forkFields /\ field_incompatible (f c) (f newcfg) h)
  \/ (IsDAOFork c (Some h) = true
      /\ DAOForkSupport c <> DAOForkSupport newcfg)
  \/ (IsEIP158 c (Some h) = true /\ ChainId c <> ChainId newcfg).

(** [post] is what the loop may still find after the conflict [e] it
    returns: nothing, or one conflict with the same rewind height. *)
Definition closes (e : ConfigCompatError.t) (post : list ConfigCompatError.t)
  : Prop :=
  post = []
  \/ exists x, post = [x]
       /\ ConfigCompatError.RewindTo x = ConfigCompatError.RewindTo e.

(** [e] is the last and lowest of the conflicts [fnd]: those before it
    rewind strictly higher, and what follows closes the loop. *)
Definition last_lowest (e : ConfigCompatError.t)
    (fnd : list ConfigCompatError.t) : Prop :=
  exists pre post,
    fnd = pre ++ e :: post
    /\ (forall x, In x pre ->
          ConfigCompatError.RewindTo e < ConfigCompatError.RewindTo x)
    /\ closes e post.

(** The rewind height of [e] is a fixed point: a pass there finds nothing,
    or a conflict that rewinds to the same height. *)
Definition settled (c newcfg : t) (e : ConfigCompatError.t) : Prop :=
  checkCompatible c newcfg (Some (ConfigCompatError.RewindTo e)) = None
  \/ exists e',
       checkCompatible c newcfg (Some (ConfigCompatError.RewindTo e)) = Some e'
       /\ ConfigCompatError.RewindTo e' = ConfigCompatError.RewindTo e.

(** The public fork predicates that read a field of the configuration,
    each with the field it reads. *)
Definition forkPredicates : list ((t -> option Z -> bool) * (t -> option Z)) :=
  [(IsHomestead, HomesteadBlock); (IsDAOFork, DAOForkBlock);
   (IsEIP150, EIP150Block); (IsEIP155, EIP155Block);
   (IsEIP158, EIP158Block); (IsByzantium, ByzantiumBlock);
   (IsConstantinople, ConstantinopleBlock)].

(** The conflict [e] as the check with the two configurations exchanged
    reports it. *)
Definition swap_error (e : ConfigCompatError.t) : ConfigCompatError.t :=
  ConfigCompatError.mk (ConfigCompatError.What e)
    (ConfigCompatError.NewConfig e) (ConfigCompatError.StoredConfig e)
    (ConfigCompatError.RewindTo e).

(** [GasTable]: the gas table of the phase the block [num] is in. *)
Definition GasTable (c : t) (num : option Z) : GasTable :=
  match num with
  | None => GasTableHomestead
  | Some _ =>
      if IsEIP158 c num then GasTableEIP158
      else if IsEIP150 c num then GasTableEIP150
      else GasTableHomestead
  end.

(** The phases in the order the tables were introduced. *)
Definition gas_phase (g : Params.GasTable) : Z :=
  match g with
  | GasTableHomestead => 0
  | GasTableEIP150 => 1
  | GasTableEIP158 => 2
  end.

Section Common.

(** [common.TIPXDCXCancellationFee], a block number declared in package
    common, which is not among the sources. *)
Variable TIPXDCXCancellationFee : option Z.

Definition IsPetersburg (c : t) (num : option Z) : bool :=
  isForked TIPXDCXCancellationFee num.

Definition IsIstanbul (c : t) (num : option Z) : bool :=
  isForked TIPXDCXCancellationFee num.

Definition IsTIPXDCXCancellationFee (c : t) (num : option Z) : bool :=
  isForked TIPXDCXCancellationFee num.

(** [Rules]: the chain id is copied into a fresh number, a nil one being
    replaced by zero first. *)
Definition Rules (c : t) (num : option Z) : Rules.t :=
  let chainId :=
    match ChainId c with
    | None => 0
    | Some id => id
    end in
  Rules.mk (Some chainId)
    (IsHomestead c num) (IsEIP150 c num) (IsEIP155 c num) (IsEIP158 c num)
    (IsByzantium c num) (IsConstantinople c num)
    (IsPetersburg c num) (IsIstanbul c num).

End Common.

End ChainConfig.

(** Configurations of the source. *)

Definition TestXDPoSV2Config : V2.t :=
  V2.mk 1 2 (Some 900) 10 3.

Definition MainnetChainConfig : ChainConfig.t :=
  ChainConfig.mk (Some 1) (Some 1150000) (Some 1920000) true
    (Some 2463000)
    0x2086799aeebeae135c246c65021c82b4e15a2c451340993aacfd2751886514f0
    (Some 2675000) (Some 2675000) (Some 4370000) None
    (Some EthashConfig.mk) None None.

Definition TestnetChainConfig : ChainConfig.t :=
  ChainConfig.mk (Some 3) (Some 0) None true
    (Some 0)
    0x62e0fde86e34c263e250fbcd5ca4598ba8ca10a1d166c8526bb127e10b313311
    (Some 10) (Some 10) (Some 1700000) None
    (Some EthashConfig.mk) None None.

(** The XDPoS section of [TestXDPoSMockChainConfig]. *)
Definition TestXDPoSMockConfig : XDPoSConfig.t :=
  XDPoSConfig.mk 0 900 0 0 450 0 0 true (Some TestXDPoSV2Config).

Definition TestXDPoSMockChainConfig : ChainConfig.t :=
  ChainConfig.mk (Some 1337) (Some 0) None false (Some 0) 0
    (Some 0) (Some 0) (Some 0) None (Some EthashConfig.mk) None
    (Some TestXDPoSMockConfig).

(** Two schedules for a run of [CheckCompatible] that needs a second pass:
    they differ on Homestead (1000 against 2000) and, lower, on EIP150
    (100 against 200). *)
Definition two_pass_stored : ChainConfig.t :=
  ChainConfig.mk (Some 1) (Some 1000) None false (Some 100) 0
    None None None None (Some EthashConfig.mk) None None.

Definition two_pass_new : ChainConfig.t :=
  ChainConfig.mk (Some 1) (Some 2000) None false (Some 200) 0
    None None None None (Some EthashConfig.mk) None None.

Definition TestChainConfig : ChainConfig.t :=
  ChainConfig.mk (Some 1) (Some 0) None false (Some 0) 0
    (Some 0) (Some 0) (Some 0) None (Some EthashConfig.mk) None None.

End Params.

(** ** miner/miner.go *)

Module Miner.

Module worker.

(** Modelled from the spec: the worker is declared in miner/worker.go,
    which is not among the sources; of its fields only the extra-data
    matters here. *)
Record t : Type := mk {
  extra : list Byte.byte
}.

(** Modelled from the spec: [setExtra] is defined in miner/worker.go, which
    is not among the sources; it stores its argument in the worker's
    extra-data field. *)
Definition setExtra (self : t) (extra : list Byte.byte) : t :=
  mk extra.

End worker.

(** The fields of [Miner] that hold data; [mux], [eth] and [engine] are
    handles to collaborators. *)
Record t : Type := mk {
  worker : worker.t;
  coinbase : Z;
  mining : Z;
  canStart : Z;
  shouldStart : Z
}.

(** The error built by [fmt.Errorf] in [SetExtra], by its two arguments. *)
Inductive error : Type :=
| ExtraExceedsMaxLength (len max : Z).

Section SetExtra.

(** [params.MaximumExtraDataSize], a [uint64] constant declared in
    params/protocol_params.go, which is not among the sources. *)
Variable MaximumExtraDataSize : Z.

(** [SetExtra]: the miner afterwards and the error returned ([None] is
    nil). *)
Definition SetExtra (m : t) (extra : list Byte.byte) : t * option error :=
  if to_uint64 (Z.of_nat (length extra)) >? MaximumExtraDataSize then
    (m, Some (ExtraExceedsMaxLength (Z.of_nat (length extra))
                MaximumExtraDataSize))
  else
    (mk (worker.setExtra (worker m) extra)
        (coinbase m) (mining m) (canStart m) (shouldStart m),
     None).

End SetExtra.

(** *** The mining life cycle

    [Start], [Stop] and the loop of [update] work on the three [int32]
    flags of the miner and call methods of the worker that are declared in
    miner/worker.go, outside the sources.  Those calls are recorded, in
    order, next to the miner.  Each operation is taken to run to its end
    before the next one starts. *)

Inductive worker_call : Type :=
| call_register
| call_start
| call_stop
| call_commitNewWork
| call_setEtherbase (addr : Z).

Record running : Type := mk_running {
  miner : t;
  calls : list worker_call
}.

Definition set_mining (m : t) (v : Z) : t :=
  mk (worker m) (coinbase m) v (canStart m) (shouldStart m).

Definition set_canStart (m : t) (v : Z) : t :=
  mk (worker m) (coinbase m) (mining m) v (shouldStart m).

Definition set_shouldStart (m : t) (v : Z) : t :=
  mk (worker m) (coinbase m) (mining m) (canStart m) v.

Definition set_coinbase (m : t) (addr : Z) : t :=
  mk (worker m) addr (mining m) (canStart m) (shouldStart m).

(** [New], for the worker [w] that [newWorker] builds: only [canStart] is
    set, and the CPU agent is registered with the worker (it is not
    started, the miner not being mining yet). *)
Definition New (w : worker.t) : running :=
  mk_running (mk w 0 0 1 0) [call_register].

Definition Mining (s : running) : bool := mining (miner s) >? 0.

Definition SetEtherbase (s : running) (addr : Z) : running :=
  mk_running (set_coinbase (miner s) addr)
    (calls s ++ [call_setEtherbase addr]).

Definition Start (s : running) (coinbase : Z) : running :=
  let s1 := mk_running (set_shouldStart (miner s) 1) (calls s) in
  let s2 := SetEtherbase s1 coinbase in
  if canStart (miner s2) =? 0 then s2
  else mk_running (set_mining (miner s2) 1)
         (calls s2 ++ [call_start; call_commitNewWork]).

Definition Stop (s : running) : running :=
  mk_running (set_shouldStart (set_mining (miner s) 0) 0)
    (calls s ++ [call_stop]).

(** The downloader events [update] subscribes to. *)
Inductive downloader_event : Type :=
| StartEvent
| DoneEvent
| FailedEvent.

(** One turn of the loop of [update], for the event [ev]. *)
Definition update (s : running) (ev : downloader_event) : running :=
  match ev with
  | StartEvent =>
      let s1 := mk_running (set_canStart (miner s) 0) (calls s) in
      if Mining s1 then
        let s2 := Stop s1 in
        mk_running (set_shouldStart (miner s2) 1) (calls s2)
      else s1
  | DoneEvent | FailedEvent =>
      let shouldStart := shouldStart (miner s) =? 1 in
      let s1 :=
        mk_running (set_shouldStart (set_canStart (miner s) 1) 0) (calls s) in
      if shouldStart then Start s1 (coinbase (miner s1)) else s1
  end.

(** The operations that move the life cycle, and a run of them. *)
Inductive operation : Type :=
| do_Start (coinbase : Z)
| do_Stop
| do_event (ev : downloader_event).

Definition step (s : running) (o : operation) : running :=
  match o with
  | do_Start coinbase => Start s coinbase
  | do_Stop => Stop s
  | do_event ev => update s ev
  end.

Definition run (w : worker.t) (ops : list operation) : running :=
  foldl step (New w) ops.

(** Whether the last of the [start] and [stop] calls made to the worker is
    a [start]. *)
Definition worker_started (cs : list worker_call) : bool :=
  foldl (fun started c =>
           match c with
           | call_start => true
           | call_stop => false
           | _ => started
           end) false cs.

(** What every run keeps: the three flags are 0 or 1, the miner is not
    mining while the downloader is syncing ([canStart] is 0), the mining
    flag agrees with the last [start] or [stop] call made to the worker,
    and the worker's data is untouched. *)
Definition lifecycle_invariant (w : worker.t) (s : running) : Prop :=
  (mining (miner s) = 0 \/ mining (miner s) = 1)
  /\ (canStart (miner s) = 0 \/ canStart (miner s) = 1)
  /\ (shouldStart (miner s) = 0 \/ shouldStart (miner s) = 1)
  /\ (canStart (miner s) = 0 -> mining (miner s) = 0)
  /\ Mining s = worker_started (calls s)
  /\ worker (miner s) = w.

End Miner.

(** ** consensus/XDPoS: committee helpers *)

Module XDPoS.

(** A 20-byte address, read as a big-endian number. *)
Definition Address : Type := N.

(** The address made of [n] bytes of value [b], as [BytesToAddress] gives
    for such a slice of at most 20 bytes. *)
Fixpoint repeated_byte (b : N) (n : nat) : Address :=
  match n with
  | O => 0%N
  | S n' => (repeated_byte b n' * 256 + b)%N
  end.

Fixpoint remove_one (x : Address) (l : list Address) : option (list Address) :=
  match l with
  | [] => None
  | y :: l' =>
      if decide (x = y) then Some l'
      else match remove_one x l' with
           | Some r => Some (y :: r)
           | None => None
           end
  end.

(** Modelled from the spec: [compareSignersLists] (the spec's
    [compareSets]) is defined in the consensus engine, of which only the
    test file is among the sources.  The spec has it true iff the two lists
    hold the same identities irrespective of order, as multisets: every
    element of the first is matched with, and struck from, the second, and
    nothing may be left over. *)
Fixpoint compareSignersLists (list1 list2 : list Address) : bool :=
  match list1 with
  | [] => match list2 with [] => true | _ :: _ => false end
  | x :: list1' =>
      match remove_one x list2 with
      | Some list2' => compareSignersLists list1' list2'
      | None => false
      end
  end.

(** The lists of [TestCompareSignersLists]. *)
Definition addr_a : Address := repeated_byte 0x61 20.
Definition addr_b : Address := repeated_byte 0x62 20.
Definition addr_c : Address := repeated_byte 0x63 20.
Definition addr_d : Address := repeated_byte 0x64 20.
Definition list1 : list Address := [addr_a; addr_b; addr_c; addr_d].
Definition list2 : list Address := [addr_c; addr_a; addr_d; addr_b].
Definition list3 : list Address := [addr_c; addr_d; addr_b].

End XDPoS.

(** ** The certificate aggregator of the round engine *)

Module Aggregator.

(** A topic is a block hash for votes, or the sentinel [None] for
    timeouts. *)
Record message : Type := mk_message {
  round : N;
  topic : option N;
  signerIdentity : N;
  signature : N
}.

Definition key_of (m : message) : N * option N := (round m, topic m).

(** What the aggregator holds for one (round, topic) key. *)
Record entry : Type := mk_entry {
  signers : gmap N N;
  sealed : bool
}.

Definition empty_entry : entry := mk_entry ∅ false.

(** What [add] tells its caller about the message besides
    [certificateFormed]. *)
Inductive verdict : Type :=
| Counted
| Duplicate
| Equivocation.

Record added : Type := mk_added {
  pool_of : gmap (N * option N) entry;
  certificateFormed : bool;
  verdict_of : verdict
}.

Definition entry_at (p : gmap (N * option N) entry) (k : N * option N) : entry :=
  default empty_entry (p !! k).

(** Modelled from the spec: the aggregator is part of the BFT round
    engine, which is not among the sources.  Section 4.5 of the spec: [add]
    is keyed by (round, topic) and keeps a map from signer to signature;
    re-adding a signer is a no-op, a second, different signature of a
    signer is reported as equivocation and not aggregated;
    [certificateFormed] is true when the count of distinct signers first
    reaches [certThreshold], after which the key is sealed. *)
Definition add (certThreshold : nat) (p : gmap (N * option N) entry)
    (m : message) : added :=
  let e := entry_at p (key_of m) in
  match signers e !! signerIdentity m with
  | Some sig =>
      mk_added p false
        (if decide (sig = signature m) then Duplicate else Equivocation)
  | None =>
      let signers' := <[signerIdentity m := signature m]> (signers e) in
      let formed := negb (sealed e) && (certThreshold <=? size signers')%nat in
      mk_added (<[key_of m := mk_entry signers' (sealed e || formed)]> p)
        formed Counted
  end.

(** The aggregator after a sequence of messages, from the empty one. *)
Definition add_all (certThreshold : nat) (ms : list message)
  : gmap (N * option N) entry :=
  foldl (fun p m => pool_of (add certThreshold p m)) ∅ ms.

(** The distinct signers among the messages [ms] for key [k]. *)
Definition signers_for (k : N * option N) (ms : list message) : gset N :=
  list_to_set (signerIdentity <$> filter (fun m => key_of m = k) ms).

(** [certificateFormed] for the message [m] that arrives after [ms]. *)
Definition formed_at (certThreshold : nat) (ms : list message) (m : message)
  : bool :=
  certificateFormed (add certThreshold (add_all certThreshold ms) m).

(** The scenario of the specification: a threshold of 3, and for round 5
    and block hash [H] votes of the members 1, 2 and 3. *)
Definition scenario_vote (member : N) : message :=
  mk_message 5%N (Some 0xabcd%N) member (1000 + member)%N.

End Aggregator.

(** ** eth/protocol.go *)

Module Eth.

Definition eth63 : Z := 63.
Definition eth64 : Z := 64.
Definition eth65 : Z := 65.
Definition xdpos2 : Z := 100.
Definition xdpos22 : Z := 101.

Definition isEth63 (version : Z) : bool :=
  if version =? 63 then true
  else if version =? 100 then true
  else false.

Definition isEth64 (version : Z) : bool :=
  if version =? 64 then true else false.

Definition isEth65 (version : Z) : bool :=
  if version =? 65 then true
  else if version =? 101 then true
  else false.

Definition isEth63OrHigher (version : Z) : bool :=
  isEth63 version || isEth64 version || isEth65 version.

Definition isEth64OrHigher (version : Z) : bool :=
  isEth64 version || isEth65 version.

Definition isEth65OrHigher (version : Z) : bool :=
  isEth65 version.

Definition ProtocolVersions : list Z := [xdpos22; xdpos2; eth65; eth64; eth63].

Definition protocolLengths : gmap Z Z :=
  <[xdpos22 := 227]> (<[xdpos2 := 227]> (<[eth65 := 17]>
    (<[eth64 := 17]> (<[eth63 := 17]> ∅)))).

(** The error codes, numbered by [iota]. *)
Definition ErrMsgTooLarge : Z := 0.
Definition ErrDecode : Z := 1.
Definition ErrInvalidMsgCode : Z := 2.
Definition ErrProtocolVersionMismatch : Z := 3.
Definition ErrNetworkIDMismatch : Z := 4.
Definition ErrGenesisMismatch : Z := 5.
Definition ErrForkIDRejected : Z := 6.
Definition ErrNoStatusMsg : Z := 7.
Definition ErrExtraStatusMsg : Z := 8.

Definition errorToString : gmap Z string :=
  <[ErrMsgTooLarge := "Message too long"%string]>
  (<[ErrDecode := "Invalid message"%string]>
  (<[ErrInvalidMsgCode := "Invalid message code"%string]>
  (<[ErrProtocolVersionMismatch := "Protocol version mismatch"%string]>
  (<[ErrNetworkIDMismatch := "Network ID mismatch"%string]>
  (<[ErrGenesisMismatch := "Genesis mismatch"%string]>
  (<[ErrForkIDRejected := "Fork ID rejected"%string]>
  (<[ErrNoStatusMsg := "No status message"%string]>
  (<[ErrExtraStatusMsg := "Extra status message"%string]> ∅)))))))).

(** [errCode.String]: a code that is no key of the map gives the empty
    string, as indexing a Go map does. *)
Definition errCode_String (e : Z) : string :=
  default ""%string (errorToString !! e).

(** The [BitLen] method of [big.Int]: the length of the magnitude in
    bits, 0 for 0. *)
Definition BitLen (x : Z) : Z :=
  if Z.abs x =? 0 then 0 else Z.log2 (Z.abs x) + 1.

(** What a call gives: nil, an error, or a nil-pointer panic. *)
Inductive result (E : Type) : Type :=
| Ok
| Err (e : E)
| Panic.
Arguments Ok {E}.
Arguments Err {E} e.
Arguments Panic {E}.

(** The errors of [sanityCheck]: the block's own, or the one made by
    [fmt.Errorf] from the bit length. *)
Inductive sanity_error (E : Type) : Type :=
| BlockError (e : E)
| TooLargeTD (tdlen : Z).
Arguments BlockError {E} e.
Arguments TooLargeTD {E} tdlen.

Section newBlockData.

(** [types.Block] and its [SanityCheck] are declared in core/types, which
    is not among the sources. *)
Variable Block : Type.
Variable BlockError_t : Type.
Variable Block_SanityCheck : Block -> option BlockError_t.

Record newBlockData : Type := mk_newBlockData {
  Block_of : Block;
  TD : option Z
}.

Definition sanityCheck (request : newBlockData)
  : result (sanity_error BlockError_t) :=
  match Block_SanityCheck (Block_of request) with
  | Some err => Err (BlockError err)
  | None =>
      match TD request with
      | None => Panic
      | Some td =>
          let tdlen := BitLen td in
          if tdlen >? 100 then Err (TooLargeTD tdlen) else Ok
      end
  end.

End newBlockData.

End Eth.

(** ** p2p/testing/peerpool.go *)

Module PeerPool.

Section TestPeerPool.

(** A [TestPeer] is an interface value with an [ID] method; an
    [enode.ID] is 32 bytes, read as a number. *)
Variable TestPeer : Type.
Variable ID : TestPeer -> N.

(** [NewTestPeerPool]: the pool is its map [peers]. *)
Definition NewTestPeerPool : gmap N TestPeer := ∅.

Definition Add (self : gmap N TestPeer) (p : TestPeer) : gmap N TestPeer :=
  <[ID p := p]> self.

Definition Remove (self : gmap N TestPeer) (p : TestPeer) : gmap N TestPeer :=
  delete (ID p) self.

Definition Has (self : gmap N TestPeer) (id : N) : bool :=
  match self !! id with
  | Some _ => true
  | None => false
  end.

(** [Get]: [None] is the nil interface value read off a missing key. *)
Definition Get (self : gmap N TestPeer) (id : N) : option TestPeer :=
  self !! id.

End TestPeerPool.

End PeerPool.

(** * Properties *)

(** ** Fork predicates and the consensus-version switch *)

Module ParamsFacts.

Import Params.

Lemma isForked_true_iff (s : option Z) (n : Z) :
  isForked s (Some n) = true <-> exists a, s = Some a /\ a <= n.
Proof.
  destruct s as [a|]; simpl.
  - rewrite Z.leb_le. split.
    + intros Hle. exists a. split; [reflexivity | exact Hle].
    + intros (a' & Heq & Hle). injection Heq as ->. exact Hle.
  - split; [discriminate | intros (a & Heq & _); discriminate].
Qed.

Lemma isForked_nil_head (s : option Z) : isForked s None = false.
Proof. destruct s; reflexivity. Qed.

Lemma isForked_nil_schedule (head : option Z) : isForked None head = false.
Proof. reflexivity. Qed.

Lemma isForked_mono (s : option Z) (h1 h2 : Z) :
  h1 <= h2 -> isForked s (Some h1) = true -> isForked s (Some h2) = true.
Proof.
  rewrite !isForked_true_iff. intros Hle (a & -> & Ha).
  exists a. split; [reflexivity | lia].
Qed.

Lemma configNumEqual_true_iff (x y : option Z) :
  configNumEqual x y = true <-> x = y.
Proof.
  destruct x as [a|], y as [b|]; simpl; try (split; congruence).
  rewrite Z.eqb_eq. split; congruence.
Qed.

Lemma configNumEqual_false_iff (x y : option Z) :
  configNumEqual x y = false <-> x <> y.
Proof.
  rewrite <- configNumEqual_true_iff. destruct (configNumEqual x y); split;
    congruence.
Qed.

Lemma versions_differ : ConsensusEngineVersion1 <> ConsensusEngineVersion2.
Proof. discriminate. Qed.

(** C4. For a present block number [n], [BlockConsensusVersion] returns
    "v2" iff the V2 section and its switch block are present and
    [n > switchBlock]; in every other case it returns "v1". *)
Theorem BlockConsensusVersion_spec (c : XDPoSConfig.t) (n : Z) :
  (XDPoSConfig.BlockConsensusVersion c (Some n) = Some ConsensusEngineVersion2
   <-> exists v2 switchBlock,
         XDPoSConfig.V2 c = Some v2 /\
         V2.SwitchBlock v2 = Some switchBlock /\ n > switchBlock)
  /\ (XDPoSConfig.BlockConsensusVersion c (Some n) = Some ConsensusEngineVersion1
      <-> ~ exists v2 switchBlock,
              XDPoSConfig.V2 c = Some v2 /\
              V2.SwitchBlock v2 = Some switchBlock /\ n > switchBlock).
Proof.
  unfold XDPoSConfig.BlockConsensusVersion.
  destruct (XDPoSConfig.V2 c) as [v2|] eqn:Hv2.
  2:{ split; split.
      - intros H. discriminate H.
      - intros (v & sb & Hv & _). discriminate.
      - intros _ (v & sb & Hv & _). discriminate.
      - reflexivity. }
  destruct (V2.SwitchBlock v2) as [sb|] eqn:Hsb.
  2:{ split; split.
      - intros H. discriminate H.
      - intros (v & sb & Hv & Hs & _). congruence.
      - intros _ (v & sb & Hv & Hs & _). congruence.
      - reflexivity. }
  destruct (Z.gtb_spec n sb) as [Hgt | Hle].
  - split; split.
    + intros _. exists v2, sb. repeat split; [exact Hsb | lia].
    + reflexivity.
    + intros H. discriminate H.
    + intros Hno. exfalso. apply Hno. exists v2, sb.
      repeat split; [exact Hsb | lia].
  - split; split.
    + intros H. discriminate H.
    + intros (v & sb' & Hv & Hs & Hn).
      injection Hv as <-. rewrite Hsb in Hs. injection Hs as <-. lia.
    + intros _ (v & sb' & Hv & Hs & Hn).
      injection Hv as <-. rewrite Hsb in Hs. injection Hs as <-. lia.
    + reflexivity.
Qed.

(** Instance of C4 on the test configuration, whose switch block is 900. *)
Lemma BlockConsensusVersion_spec_witness :
  XDPoSConfig.BlockConsensusVersion TestXDPoSMockConfig (Some 901)
  = Some ConsensusEngineVersion2.
Proof.
  apply (proj1 (BlockConsensusVersion_spec TestXDPoSMockConfig 901)).
  exists TestXDPoSV2Config, 900.
  split; [reflexivity | split; [reflexivity | lia]].
Defined.

(** C5. [BlockConsensusVersion] is monotonic in the block number: once "v2"
    is returned at [h1] it is returned at every later [h2]. *)
Theorem BlockConsensusVersion_monotonic (c : XDPoSConfig.t) (h1 h2 : Z) :
  h1 < h2 ->
  XDPoSConfig.BlockConsensusVersion c (Some h1) = Some ConsensusEngineVersion2 ->
  XDPoSConfig.BlockConsensusVersion c (Some h2) = Some ConsensusEngineVersion2.
Proof.
  intros Hlt H1.
  apply (proj1 (BlockConsensusVersion_spec c h1)) in H1.
  destruct H1 as (v2 & sb & Hv & Hs & Hn).
  apply (proj1 (BlockConsensusVersion_spec c h2)).
  exists v2, sb. split; [exact Hv | split; [exact Hs | lia]].
Qed.

Lemma BlockConsensusVersion_monotonic_witness :
  XDPoSConfig.BlockConsensusVersion TestXDPoSMockConfig (Some 1800)
  = Some ConsensusEngineVersion2.
Proof.
  apply (BlockConsensusVersion_monotonic TestXDPoSMockConfig 901 1800);
    [lia | reflexivity].
Defined.

(** C6. For a present block number [n], each fork predicate that reads a
    field of the configuration is true iff that field is present and at
    most [n]; an absent field makes it false for every block number, and a
    field of 0 makes it true from genesis (block 0) onward. *)
Theorem fork_predicates_spec (c : ChainConfig.t) (n : Z) :
  Forall (fun pf : (ChainConfig.t -> option Z -> bool)
                   * (ChainConfig.t -> option Z) =>
            (fst pf c (Some n) = true
             <-> exists activationBlock,
                   snd pf c = Some activationBlock /\ activationBlock <= n)
            /\ (snd pf c = None -> forall num, fst pf c num = false)
            /\ (snd pf c = Some 0 -> 0 <= n -> fst pf c (Some n) = true))
         ChainConfig.forkPredicates.
Proof.
  unfold ChainConfig.forkPredicates.
  repeat apply List.Forall_cons; try apply List.Forall_nil; simpl;
    unfold ChainConfig.IsHomestead, ChainConfig.IsDAOFork,
      ChainConfig.IsEIP150, ChainConfig.IsEIP155, ChainConfig.IsEIP158,
      ChainConfig.IsByzantium, ChainConfig.IsConstantinople;
    (split; [apply isForked_true_iff | split;
      [ intros -> num; apply isForked_nil_schedule
      | intros -> Hn; apply isForked_true_iff; exists 0;
        split; [reflexivity | exact Hn] ]]).
Qed.

(** Instance of C6: Byzantium is active on the main network at its
    activation block. *)
Lemma fork_predicates_spec_witness :
  ChainConfig.IsByzantium MainnetChainConfig (Some 4370000) = true.
Proof.
  pose proof (fork_predicates_spec MainnetChainConfig 4370000) as H.
  rewrite List.Forall_forall in H.
  specialize (H (ChainConfig.IsByzantium, ChainConfig.ByzantiumBlock)).
  assert (Hin : In (ChainConfig.IsByzantium, ChainConfig.ByzantiumBlock)
                  ChainConfig.forkPredicates).
  { unfold ChainConfig.forkPredicates. do 5 right. left. reflexivity. }
  destruct (H Hin) as [Hiff _]. simpl in Hiff.
  apply Hiff. exists 4370000. split; [reflexivity | lia].
Defined.

(** C10. On a nil block number every fork predicate that reads a field of
    the configuration returns false, whatever the configuration, and
    [isForked] is false as soon as the schedule or the head is nil. *)
Theorem fork_predicates_nil_head (c : ChainConfig.t) :
  Forall (fun pf : (ChainConfig.t -> option Z -> bool)
                   * (ChainConfig.t -> option Z) =>
            fst pf c None = false)
         ChainConfig.forkPredicates
  /\ (forall s, isForked s None = false)
  /\ (forall head, isForked None head = false).
Proof.
  split; [| split; [apply isForked_nil_head | apply isForked_nil_schedule]].
  unfold ChainConfig.forkPredicates.
  repeat apply List.Forall_cons; try apply List.Forall_nil; simpl;
    apply isForked_nil_head.
Qed.

End ParamsFacts.

(** ** The configuration compatibility check *)

Module CompatFacts.

Import Params ParamsFacts.

Lemma isForkIncompatible_iff (s1 s2 : option Z) (h : Z) :
  isForkIncompatible s1 s2 (Some h) = true
  <-> ChainConfig.field_incompatible s1 s2 h.
Proof.
  unfold isForkIncompatible, ChainConfig.field_incompatible,
    ChainConfig.at_or_before.
  rewrite andb_true_iff, orb_true_iff, negb_true_iff,
    configNumEqual_false_iff, !isForked_true_iff.
  tauto.
Qed.

Lemma uint64_of_small (z : Z) :
  0 <= z < uint64_modulus -> to_uint64 z = z.
Proof. intros Hz. unfold to_uint64. apply Z.mod_small. exact Hz. Qed.

(** The pointer [rew] chosen by [newCompatError] is the lower height. *)
Lemma newCompatError_RewindTo (what : string) (s1 s2 : option Z) :
  ConfigCompatError.RewindTo (newCompatError what s1 s2)
  = match ChainConfig.lower_height s1 s2 with
    | Some r => if 0 <? Sign r then uint64_sub (Uint64 r) 1 else 0
    | None => 0
    end.
Proof.
  destruct s1 as [a|], s2 as [b|]; simpl; try reflexivity.
  destruct (Z.ltb_spec a b) as [Hlt | Hge].
  - rewrite Z.min_l by lia. reflexivity.
  - rewrite Z.min_r by lia. reflexivity.
Qed.

Lemma lower_height_forked (s1 s2 : option Z) (b : Z) :
  isForked s1 (Some b) = true \/ isForked s2 (Some b) = true ->
  exists l, ChainConfig.lower_height s1 s2 = Some l /\ l <= b.
Proof.
  rewrite !isForked_true_iff.
  intros [(a & -> & Ha) | (a & -> & Ha)].
  - destruct s2 as [a2|]; simpl.
    + exists (Z.min a a2). split; [reflexivity | lia].
    + exists a. split; [reflexivity | exact Ha].
  - destruct s1 as [a1|]; simpl.
    + exists (Z.min a1 a). split; [reflexivity | lia].
    + exists a. split; [reflexivity | exact Ha].
Qed.

(** A conflict raised at a [uint64] head [b] rewinds to the target of the
    specification, which is never above [b] and is below it unless
    [b = 0]. *)
Lemma newCompatError_rewind (what : string) (s1 s2 : option Z) (b : Z) :
  0 <= b < uint64_modulus ->
  isForked s1 (Some b) = true \/ isForked s2 (Some b) = true ->
  ConfigCompatError.RewindTo (newCompatError what s1 s2)
  = ChainConfig.rewind_target s1 s2
  /\ 0 <= ConfigCompatError.RewindTo (newCompatError what s1 s2) <= b
  /\ (0 < b -> ConfigCompatError.RewindTo (newCompatError what s1 s2) < b).
Proof.
  intros Hb Hforked.
  destruct (lower_height_forked s1 s2 b Hforked) as (l & Hl & Hle).
  rewrite newCompatError_RewindTo. unfold ChainConfig.rewind_target.
  rewrite Hl. unfold Sign, Uint64, uint64_sub.
  destruct (Z.ltb_spec 0 l) as [Hpos | Hnonpos].
  - assert (Hsgn : Z.sgn l = 1) by (apply Z.sgn_pos; exact Hpos).
    rewrite Hsgn. change (0 <? 1) with true. cbv iota.
    rewrite (Z.abs_eq l) by lia.
    rewrite (Z.mod_small l) by lia.
    rewrite (Z.mod_small (l - 1)) by lia.
    lia.
  - assert (Hsgn : Z.sgn l <= 0).
    { destruct (Z.eq_dec l 0) as [-> | Hne]; [reflexivity |].
      rewrite Z.sgn_neg by lia. lia. }
    destruct (Z.ltb_spec 0 (Z.sgn l)) as [Habs | _]; [lia |].
    lia.
Qed.

(** A conflict reported by [checkCompatible] carries the two heights of
    one activation field, one of which is at or before the head. *)
Lemma checkCompatible_Some (c newcfg : ChainConfig.t) (head : option Z)
    (e : ConfigCompatError.t) :
  ChainConfig.checkCompatible c newcfg head = Some e ->
  exists what f,
    In f ChainConfig.forkFields
    /\ e = newCompatError what (f c) (f newcfg)
    /\ (isForked (f c) head = true \/ isForked (f newcfg) head = true).
Proof.
  unfold ChainConfig.checkCompatible, isForkIncompatible,
    ChainConfig.IsDAOFork, ChainConfig.IsEIP158, ChainConfig.forkFields.
  repeat match goal with
         | |- context [if ?t then _ else _] =>
             destruct t eqn:?
         end;
    intros Heq; try discriminate Heq; injection Heq as <-;
    repeat match goal with
           | H : (_ && _)%bool = true |- _ =>
               apply andb_true_iff in H; destruct H as [H _]
           | H : (_ || _)%bool = true |- _ => apply orb_true_iff in H
           end.
  - exists "Homestead fork block"%string, ChainConfig.HomesteadBlock.
    simpl. tauto.
  - exists "DAO fork block"%string, ChainConfig.DAOForkBlock. simpl. tauto.
  - exists "DAO fork support flag"%string, ChainConfig.DAOForkBlock.
    simpl. tauto.
  - exists "EIP150 fork block"%string, ChainConfig.EIP150Block. simpl. tauto.
  - exists "EIP155 fork block"%string, ChainConfig.EIP155Block. simpl. tauto.
  - exists "EIP158 fork block"%string, ChainConfig.EIP158Block. simpl. tauto.
  - exists "EIP158 chain ID"%string, ChainConfig.EIP158Block. simpl. tauto.
  - exists "Byzantium fork block"%string, ChainConfig.ByzantiumBlock.
    simpl. tauto.
  - exists "Constantinople fork block"%string, ChainConfig.ConstantinopleBlock.
    simpl. tauto.
Qed.

(** Each conflict found at a [uint64] check height [b] rewinds to the
    specification's target for the two heights it reports, at or below
    [b], and strictly below it when [b] is positive. *)
Lemma checkCompatible_rewind (c newcfg : ChainConfig.t) (b : Z)
    (e : ConfigCompatError.t) :
  0 <= b < uint64_modulus ->
  ChainConfig.checkCompatible c newcfg (Some b) = Some e ->
  ConfigCompatError.RewindTo e
  = ChainConfig.rewind_target (ConfigCompatError.StoredConfig e)
      (ConfigCompatError.NewConfig e)
  /\ 0 <= ConfigCompatError.RewindTo e <= b
  /\ (0 < b -> ConfigCompatError.RewindTo e < b).
Proof.
  intros Hb Hcheck.
  destruct (checkCompatible_Some c newcfg (Some b) e Hcheck)
    as (what & f & _ & -> & Hforked).
  apply (newCompatError_rewind what (f c) (f newcfg) b Hb Hforked).
Qed.

Lemma isForkIncompatible_same (s head : option Z) :
  isForkIncompatible s s head = false.
Proof.
  unfold isForkIncompatible.
  rewrite (proj2 (configNumEqual_true_iff s s) eq_refl).
  apply andb_false_r.
Qed.

(** One pass reports a conflict exactly in the cases of [conflict_at]. *)
Lemma checkCompatible_conflict_iff (c newcfg : ChainConfig.t) (h : Z) :
  ChainConfig.checkCompatible c newcfg (Some h) <> None
  <-> ChainConfig.conflict_at c newcfg h.
Proof.
  unfold ChainConfig.checkCompatible, ChainConfig.conflict_at.
  repeat match goal with
         | |- context [if ?t then _ else _] => destruct t eqn:?
         end;
    try (split; [intros _ | discriminate]).
  10:{ split; [congruence |].
       intros [(f & Hin & Hinc) | [(Hd & Hne) | (He & Hne)]].
       - apply isForkIncompatible_iff in Hinc.
         unfold ChainConfig.forkFields in Hin. simpl in Hin.
         repeat (destruct Hin as [<- | Hin]; [congruence |]).
         destruct Hin.
       - rewrite Hd in *. simpl in *.
         match goal with
         | H : negb (eqb _ _) = false |- _ =>
             apply negb_false_iff, eqb_prop in H; contradiction
         end.
       - rewrite He in *. simpl in *.
         match goal with
         | H : negb (configNumEqual _ _) = false |- _ =>
             apply negb_false_iff, configNumEqual_true_iff in H; contradiction
         end. }
  all: try match goal with
       | H : isForkIncompatible (?f _) (?f _) _ = true |- _ =>
           left; exists f; split;
           [unfold ChainConfig.forkFields; simpl; tauto
           | apply isForkIncompatible_iff; exact H]
       end.
  - right; left.
    match goal with
    | H : (_ && _)%bool = true |- _ =>
        apply andb_true_iff in H; destruct H as [Hd Hne]
    end.
    split; [exact Hd |].
    apply negb_true_iff, eqb_false_iff in Hne. exact Hne.
  - right; right.
    match goal with
    | H : (_ && _)%bool = true |- _ =>
        apply andb_true_iff in H; destruct H as [He Hne]
    end.
    split; [exact He |].
    apply negb_true_iff, configNumEqual_false_iff in Hne. exact Hne.
Qed.

Section Loop.

Variables c newcfg : ChainConfig.t.

Lemma loop_S (fuel : nat) (s : ChainConfig.loop_state) :
  ChainConfig.loop c newcfg (S fuel) s
  = match ChainConfig.loop_step c newcfg s with
    | inr r => ChainConfig.Returned r
    | inl s' => ChainConfig.loop c newcfg fuel s'
    end.
Proof. reflexivity. Qed.

(** More fuel never changes what the loop returns. *)
Lemma loop_fuel_mono (fuel fuel' : nat) (s : ChainConfig.loop_state)
    (r : option ConfigCompatError.t) :
  (fuel <= fuel')%nat ->
  ChainConfig.loop c newcfg fuel s = ChainConfig.Returned r ->
  ChainConfig.loop c newcfg fuel' s = ChainConfig.Returned r.
Proof.
  revert fuel' s. induction fuel as [| fuel IH]; intros fuel' s Hle Hrun.
  - discriminate Hrun.
  - destruct fuel' as [| fuel']; [lia |].
    rewrite loop_S in *.
    destruct (ChainConfig.loop_step c newcfg s) as [s' | r'].
    + apply IH; [lia | exact Hrun].
    + exact Hrun.
Qed.

(** Every conflict of the trace was reported by a pass at some height at
    or below the head the trace starts from. *)
Lemma found_checked (fuel : nat) (s : ChainConfig.loop_state)
    (x : ConfigCompatError.t) :
  0 <= ChainConfig.bhead s < uint64_modulus ->
  In x (ChainConfig.found c newcfg fuel s) ->
  exists b, 0 <= b <= ChainConfig.bhead s
            /\ ChainConfig.checkCompatible c newcfg (Some b) = Some x.
Proof.
  revert s. induction fuel as [| fuel IH]; intros s Hb Hin; [destruct Hin |].
  simpl in Hin.
  destruct (ChainConfig.checkCompatible c newcfg (Some (ChainConfig.bhead s)))
    as [err |] eqn:Hcheck; [| destruct Hin].
  destruct (checkCompatible_rewind c newcfg _ err Hb Hcheck)
    as (_ & Hrange & _).
  assert (Hhere : exists b, 0 <= b <= ChainConfig.bhead s
            /\ ChainConfig.checkCompatible c newcfg (Some b) = Some err).
  { exists (ChainConfig.bhead s). split; [lia | exact Hcheck]. }
  destruct (ChainConfig.rewind_repeats (ChainConfig.lasterr s) err).
  - destruct Hin as [<- | []]. exact Hhere.
  - destruct Hin as [<- | Hin]; [exact Hhere |].
    apply IH in Hin; simpl; [| lia].
    destruct Hin as (b & Hbr & Hb'). simpl in Hbr.
    exists b. split; [lia | exact Hb'].
Qed.

(** The loop from a state that already keeps a conflict [l], found with
    rewind height [b], the head now under test. *)
Lemma loop_from_conflict (fuel : nat) (b : Z) (l : ConfigCompatError.t) :
  0 <= b < uint64_modulus ->
  ConfigCompatError.RewindTo l = b ->
  (Z.to_nat b < fuel)%nat ->
  exists e,
    ChainConfig.loop c newcfg fuel (ChainConfig.mk_loop_state b (Some l))
    = ChainConfig.Returned (Some e)
    /\ ChainConfig.settled c newcfg e
    /\ ((e = l
         /\ ChainConfig.closes l
              (ChainConfig.found c newcfg fuel
                 (ChainConfig.mk_loop_state b (Some l))))
        \/ (ConfigCompatError.RewindTo e < ConfigCompatError.RewindTo l
            /\ ChainConfig.last_lowest e
                 (ChainConfig.found c newcfg fuel
                    (ChainConfig.mk_loop_state b (Some l))))).
Proof.
  revert b l. induction fuel as [| fuel IH]; intros b l Hb Hl Hfuel; [lia |].
  rewrite loop_S. unfold ChainConfig.loop_step. simpl.
  destruct (ChainConfig.checkCompatible c newcfg (Some b)) as [err |] eqn:Hcheck.
  2:{ exists l. split; [reflexivity |]. split.
      - left. rewrite Hl. exact Hcheck.
      - left. split; [reflexivity | left; reflexivity]. }
  destruct (checkCompatible_rewind c newcfg b err Hb Hcheck)
    as (_ & Hrange & _).
  destruct (Z.eqb_spec (ConfigCompatError.RewindTo err)
              (ConfigCompatError.RewindTo l)) as [Hsame | Hdiff].
  - exists l. split; [reflexivity |]. split.
    + right. exists err. rewrite Hl. split; [exact Hcheck | congruence].
    + left. split; [reflexivity |]. right. exists err.
      split; [reflexivity | exact Hsame].
  - assert (Hlt : ConfigCompatError.RewindTo err < b) by lia.
    destruct (IH (ConfigCompatError.RewindTo err) err) as (e & Hrun & Hset & Hshape);
      [lia | reflexivity | lia |].
    exists e. split; [exact Hrun |]. split; [exact Hset |].
    right. destruct Hshape as [(-> & Hclose) | (Hlow & pre & post & Hfnd & Hpre & Hclose)].
    + split; [lia |]. exists [], (ChainConfig.found c newcfg fuel
                 (ChainConfig.mk_loop_state (ConfigCompatError.RewindTo err) (Some err))).
      split; [reflexivity |]. split; [intros x [] | exact Hclose].
    + split; [lia |]. exists (err :: pre), post.
      split; [rewrite Hfnd; reflexivity |]. split; [| exact Hclose].
      intros x [<- | Hx]; [exact Hlow | apply Hpre; exact Hx].
Qed.

(** The whole loop, from the height handed to [CheckCompatible]. *)
Lemma loop_from_start (fuel : nat) (h : Z) :
  0 <= h < uint64_modulus ->
  (ChainConfig.enough_fuel h <= fuel)%nat ->
  match ChainConfig.checkCompatible c newcfg (Some h) with
  | None =>
      ChainConfig.loop c newcfg fuel (ChainConfig.mk_loop_state h None)
      = ChainConfig.Returned None
      /\ ChainConfig.found c newcfg fuel (ChainConfig.mk_loop_state h None) = []
  | Some _ =>
      exists e,
        ChainConfig.loop c newcfg fuel (ChainConfig.mk_loop_state h None)
        = ChainConfig.Returned (Some e)
        /\ ChainConfig.settled c newcfg e
        /\ ChainConfig.last_lowest e
             (ChainConfig.found c newcfg fuel (ChainConfig.mk_loop_state h None))
  end.
Proof.
  intros Hh Hfuel. unfold ChainConfig.enough_fuel in Hfuel.
  destruct fuel as [| fuel]; [lia |].
  rewrite loop_S. unfold ChainConfig.loop_step. simpl.
  destruct (ChainConfig.checkCompatible c newcfg (Some h)) as [err |] eqn:Hcheck;
    [| split; reflexivity].
  destruct (checkCompatible_rewind c newcfg h err Hh Hcheck)
    as (_ & Hrange & _).
  destruct (loop_from_conflict fuel (ConfigCompatError.RewindTo err) err)
    as (e & Hrun & Hset & Hshape); [lia | reflexivity | lia |].
  exists e. split; [exact Hrun |]. split; [exact Hset |].
  destruct Hshape as [(-> & Hclose) | (Hlow & pre & post & Hfnd & Hpre & Hclose)].
  - exists [], (ChainConfig.found c newcfg fuel
      (ChainConfig.mk_loop_state (ConfigCompatError.RewindTo err) (Some err))).
    split; [reflexivity |]. split; [intros x [] | exact Hclose].
  - exists (err :: pre), post.
    split; [rewrite Hfnd; reflexivity |]. split; [| exact Hclose].
    intros x [<- | Hx]; [exact Hlow | apply Hpre; exact Hx].
Qed.

(** A second run from the rewind height of a settled conflict finds
    nothing lower. *)
Lemma settled_rerun (e : ConfigCompatError.t) :
  ChainConfig.settled c newcfg e ->
  exists r2,
    ChainConfig.CheckCompatible c newcfg (ConfigCompatError.RewindTo e)
    = ChainConfig.Returned r2
    /\ forall e2, r2 = Some e2 ->
         ConfigCompatError.RewindTo e2 = ConfigCompatError.RewindTo e.
Proof.
  unfold ChainConfig.settled, ChainConfig.CheckCompatible,
    ChainConfig.enough_fuel.
  intros [Hnone | (e' & Hsome & Hsame)].
  - exists None. rewrite loop_S. unfold ChainConfig.loop_step. simpl.
    rewrite Hnone. split; [reflexivity | discriminate].
  - exists (Some e'). rewrite loop_S. unfold ChainConfig.loop_step. simpl.
    rewrite Hsome. simpl.
    unfold ChainConfig.loop_step. simpl.
    rewrite Hsame, Hsome. unfold ChainConfig.rewind_repeats.
    rewrite Hsame, Z.eqb_refl. split; [reflexivity |].
    intros e2 [= <-]. exact Hsame.
Qed.

End Loop.

Lemma CheckCompatible_none (c newcfg : ChainConfig.t) (h : Z) :
  ChainConfig.checkCompatible c newcfg (Some h) = None ->
  ChainConfig.CheckCompatible c newcfg h = ChainConfig.Returned None.
Proof.
  intros Hnone. unfold ChainConfig.CheckCompatible, ChainConfig.enough_fuel.
  rewrite loop_S. unfold ChainConfig.loop_step. simpl.
  rewrite Hnone. reflexivity.
Qed.

(** A conflict whose rewind height is free of conflicts is the one
    returned. *)
Lemma CheckCompatible_single (c newcfg : ChainConfig.t) (h : Z)
    (err : ConfigCompatError.t) :
  ChainConfig.checkCompatible c newcfg (Some h) = Some err ->
  ChainConfig.checkCompatible c newcfg
    (Some (ConfigCompatError.RewindTo err)) = None ->
  ChainConfig.CheckCompatible c newcfg h = ChainConfig.Returned (Some err).
Proof.
  intros Hsome Hnone.
  unfold ChainConfig.CheckCompatible, ChainConfig.enough_fuel.
  rewrite loop_S. unfold ChainConfig.loop_step. simpl.
  rewrite Hsome. simpl.
  unfold ChainConfig.loop_step. simpl.
  rewrite Hnone. reflexivity.
Qed.

(** Two configurations that differ in the EIP150 height only: one pass
    tests that field alone. *)
Lemma checkCompatible_EIP150_only (base : ChainConfig.t) (a b head : option Z) :
  ChainConfig.checkCompatible
    (ChainConfig.with_EIP150Block base a)
    (ChainConfig.with_EIP150Block base b) head
  = if isForkIncompatible a b head
    then Some (newCompatError "EIP150 fork block" a b)
    else None.
Proof.
  unfold ChainConfig.checkCompatible, ChainConfig.with_EIP150Block,
    ChainConfig.IsDAOFork, ChainConfig.IsEIP158.
  simpl.
  rewrite !isForkIncompatible_same, eqb_reflx,
    (proj2 (configNumEqual_true_iff _ _) eq_refl).
  simpl. rewrite !andb_false_r. reflexivity.
Qed.

Lemma in_uint64_range (z : Z) :
  (0 <=? z) && (z <? uint64_modulus) = true -> 0 <= z < uint64_modulus.
Proof.
  rewrite andb_true_iff, Z.leb_le, Z.ltb_lt. tauto.
Qed.

(** C2, as the code has it.  For a [uint64] height [h], [CheckCompatible]
    returns, and what it returns is non-nil iff one pass at [h] reports a
    conflict: an activation field on which the two configurations disagree
    while one of the two heights is at or before [h], or a DAO fork
    support flag that differs once the stored DAO fork is active, or a
    chain id that differs once the stored EIP158 fork is active.  The
    error returned reports the two heights of one activation field, and its
    [RewindTo] is one less than the lower of them when that is positive,
    and 0 otherwise.  Two configurations that differ in [EIP150Block] only,
    100 against 200, give an EIP150 error with [RewindTo = 99] at
    height 150. *)
Theorem CheckCompatible_conflict :
  (forall (c newcfg : ChainConfig.t) (h : Z),
      0 <= h < uint64_modulus ->
      exists r,
        ChainConfig.CheckCompatible c newcfg h = ChainConfig.Returned r
        /\ (r <> None <-> ChainConfig.conflict_at c newcfg h)
        /\ (forall e, r = Some e ->
              ConfigCompatError.RewindTo e
              = ChainConfig.rewind_target (ConfigCompatError.StoredConfig e)
                  (ConfigCompatError.NewConfig e)
              /\ exists f, In f ChainConfig.forkFields
                           /\ ConfigCompatError.StoredConfig e = f c
                           /\ ConfigCompatError.NewConfig e = f newcfg))
  /\ (forall (base : ChainConfig.t) (a b : Z),
        (a = 100 /\ b = 200) \/ (a = 200 /\ b = 100) ->
        exists e,
          ChainConfig.CheckCompatible
            (ChainConfig.with_EIP150Block base (Some a))
            (ChainConfig.with_EIP150Block base (Some b)) 150
          = ChainConfig.Returned (Some e)
          /\ ConfigCompatError.What e = "EIP150 fork block"%string
          /\ ConfigCompatError.RewindTo e = 99).
Proof.
  split.
  - intros c newcfg h Hh.
    pose proof (loop_from_start c newcfg (ChainConfig.enough_fuel h) h Hh
                  (Nat.le_refl _)) as Hrun.
    pose proof (checkCompatible_conflict_iff c newcfg h) as Hiff.
    fold (ChainConfig.CheckCompatible c newcfg h) in Hrun.
    destruct (ChainConfig.checkCompatible c newcfg (Some h)) as [err |].
    + destruct Hrun as (e & Hret & _ & pre & post & Hfnd & _).
      exists (Some e). split; [exact Hret |]. split.
      * split; [intros _; apply Hiff; discriminate | discriminate].
      * intros e' [= <-].
        assert (Hin : In e (ChainConfig.found c newcfg (ChainConfig.enough_fuel h)
                              (ChainConfig.mk_loop_state h None))).
        { rewrite Hfnd. apply in_or_app. right. left. reflexivity. }
        apply found_checked in Hin; [| exact Hh].
        destruct Hin as (b & Hb & Hcheck). simpl in Hb.
        destruct (checkCompatible_rewind c newcfg b e) as (Hrew & _);
          [lia | exact Hcheck |].
        split; [exact Hrew |].
        destruct (checkCompatible_Some c newcfg (Some b) e Hcheck)
          as (what & f & Hf & -> & _).
        exists f. split; [exact Hf | split; reflexivity].
    + destruct Hrun as (Hret & _).
      exists None. split; [exact Hret |]. split.
      * split; [congruence |]. intros Hc. apply Hiff in Hc. congruence.
      * discriminate.
  - intros base a b Hab.
    exists (newCompatError "EIP150 fork block" (Some a) (Some b)).
    split; [| destruct Hab as [(-> & ->) | (-> & ->)]; split; reflexivity].
    apply CheckCompatible_single; rewrite checkCompatible_EIP150_only;
      destruct Hab as [(-> & ->) | (-> & ->)]; reflexivity.
Qed.

(** Instance of C2 on the main-network configuration with its EIP150
    block moved from 2463000 to 2500000, checked at height 2600000. *)
Lemma CheckCompatible_conflict_witness :
  exists r,
    ChainConfig.CheckCompatible MainnetChainConfig
      (ChainConfig.with_EIP150Block MainnetChainConfig (Some 2500000)) 2600000
    = ChainConfig.Returned r.
Proof.
  destruct (proj1 CheckCompatible_conflict MainnetChainConfig
              (ChainConfig.with_EIP150Block MainnetChainConfig (Some 2500000))
              2600000)
    as (r & Hr & _).
  - apply in_uint64_range. reflexivity.
  - exists r. exact Hr.
Defined.

(** C2 as stated fails.  With a chain id that differs and an active EIP158
    fork, an error is returned although the two configurations agree on
    every activation field; and with a Homestead height of 0 against 5 the
    error rewinds to 0, which is not one less than the lower height 0. *)
Lemma CheckCompatible_claim_counterexample :
  (exists e,
      ChainConfig.CheckCompatible TestChainConfig
        (ChainConfig.with_ChainId TestChainConfig (Some 2)) 10
      = ChainConfig.Returned (Some e)
      /\ ~ exists f, In f ChainConfig.forkFields
                     /\ ChainConfig.field_incompatible (f TestChainConfig)
                          (f (ChainConfig.with_ChainId TestChainConfig (Some 2)))
                          10)
  /\ (exists e l,
        ChainConfig.CheckCompatible TestChainConfig
          (ChainConfig.with_HomesteadBlock TestChainConfig (Some 5)) 10
        = ChainConfig.Returned (Some e)
        /\ ChainConfig.lower_height (ConfigCompatError.StoredConfig e)
             (ConfigCompatError.NewConfig e) = Some l
        /\ ConfigCompatError.RewindTo e <> l - 1).
Proof.
  split.
  - exists (newCompatError "EIP158 chain ID" (Some 0) (Some 0)).
    split; [reflexivity |].
    intros (f & Hin & Hne & _). apply Hne.
    unfold ChainConfig.forkFields in Hin. simpl in Hin.
    repeat (destruct Hin as [<- | Hin]; [reflexivity |]).
    destruct Hin.
  - exists (newCompatError "Homestead fork block" (Some 0) (Some 5)), 0.
    split; [reflexivity |]. split; [reflexivity |].
    discriminate.
Qed.

(** C3, as the code has it.  For a [uint64] starting height the loop of
    [CheckCompatible] terminates: a conflict found at a check height [b]
    rewinds to a height at or below [b], strictly below it when [b] is
    positive (at 0 the rewind height is 0 again and the loop stops on the
    repeated rewind height); with the iterations of [enough_fuel] or more
    the loop returns, and always the same value.  That value is nil iff no
    conflict was found, and otherwise the last and lowest conflict of the
    trace: the conflicts found before it rewind strictly higher, and after
    it at most one conflict with the same rewind height was found.
    Running the check again at the rewind height of the returned conflict
    finds no conflict, or one that rewinds to that same height. *)
Theorem CheckCompatible_terminates (c newcfg : ChainConfig.t) (h : Z) :
  0 <= h < uint64_modulus ->
  (forall b e,
      0 <= b < uint64_modulus ->
      ChainConfig.checkCompatible c newcfg (Some b) = Some e ->
      0 <= ConfigCompatError.RewindTo e <= b
      /\ (0 < b -> ConfigCompatError.RewindTo e < b))
  /\ exists r,
       (forall fuel, (ChainConfig.enough_fuel h <= fuel)%nat ->
          ChainConfig.loop c newcfg fuel (ChainConfig.mk_loop_state h None)
          = ChainConfig.Returned r)
       /\ ChainConfig.CheckCompatible c newcfg h = ChainConfig.Returned r
       /\ (r = None
           <-> ChainConfig.found c newcfg (ChainConfig.enough_fuel h)
                 (ChainConfig.mk_loop_state h None) = [])
       /\ (forall e, r = Some e ->
             ChainConfig.last_lowest e
               (ChainConfig.found c newcfg (ChainConfig.enough_fuel h)
                  (ChainConfig.mk_loop_state h None))
             /\ exists r2,
                  ChainConfig.CheckCompatible c newcfg
                    (ConfigCompatError.RewindTo e)
                  = ChainConfig.Returned r2
                  /\ forall e2, r2 = Some e2 ->
                       ConfigCompatError.RewindTo e2
                       = ConfigCompatError.RewindTo e).
Proof.
  intros Hh. split.
  { intros b e Hb Hcheck.
    destruct (checkCompatible_rewind c newcfg b e Hb Hcheck) as (_ & H1 & H2).
    split; assumption. }
  pose proof (loop_from_start c newcfg (ChainConfig.enough_fuel h) h Hh
                (Nat.le_refl _)) as Hrun.
  destruct (ChainConfig.checkCompatible c newcfg (Some h)) as [err |].
  - destruct Hrun as (e & Hret & Hset & Hlast).
    exists (Some e). split; [| split; [exact Hret | split]].
    + intros fuel Hfuel.
      apply (loop_fuel_mono c newcfg (ChainConfig.enough_fuel h));
        [exact Hfuel | exact Hret].
    + split; [discriminate |].
      destruct Hlast as (pre & post & Hfnd & _). rewrite Hfnd.
      intros Hnil. destruct pre; discriminate Hnil.
    + intros e' [= <-]. split; [exact Hlast |].
      apply settled_rerun. exact Hset.
  - destruct Hrun as (Hret & Hnil).
    exists None. split; [| split; [exact Hret | split]].
    + intros fuel Hfuel.
      apply (loop_fuel_mono c newcfg (ChainConfig.enough_fuel h));
        [exact Hfuel | exact Hret].
    + split; [intros _; exact Hnil | reflexivity].
    + discriminate.
Qed.

(** Instance of C3: the test network with its Homestead height moved from
    0 to 5, checked from height 20. *)
Lemma CheckCompatible_terminates_witness :
  exists r,
    ChainConfig.CheckCompatible TestnetChainConfig
      (ChainConfig.with_HomesteadBlock TestnetChainConfig (Some 5)) 20
    = ChainConfig.Returned r.
Proof.
  destruct (CheckCompatible_terminates TestnetChainConfig
              (ChainConfig.with_HomesteadBlock TestnetChainConfig (Some 5)) 20)
    as (_ & r & _ & Hr & _).
  - apply in_uint64_range. reflexivity.
  - exists r. exact Hr.
Defined.

(** C3 as stated fails at height 0: a conflict on a fork that is active at
    genesis is found at check height 0 and rewinds to 0, which is not
    strictly less; the loop then stops on the repeated rewind height. *)
Lemma CheckCompatible_strict_counterexample :
  exists e,
    ChainConfig.checkCompatible TestChainConfig
      (ChainConfig.with_HomesteadBlock TestChainConfig None) (Some 0)
    = Some e
    /\ ConfigCompatError.RewindTo e = 0
    /\ ChainConfig.found TestChainConfig
         (ChainConfig.with_HomesteadBlock TestChainConfig None)
         (ChainConfig.enough_fuel 0) (ChainConfig.mk_loop_state 0 None)
       = [e; e]
    /\ ChainConfig.CheckCompatible TestChainConfig
         (ChainConfig.with_HomesteadBlock TestChainConfig None) 0
       = ChainConfig.Returned (Some e).
Proof.
  exists (newCompatError "Homestead fork block" (Some 0) None).
  repeat split; reflexivity.
Qed.

(** A run with two conflicts: the pass at 5000 reports Homestead, the pass
    at its rewind height 999 reports EIP150, the pass at 99 nothing; the
    EIP150 conflict is returned. *)
Example CheckCompatible_two_passes :
  ChainConfig.found two_pass_stored two_pass_new
    (ChainConfig.enough_fuel 5000) (ChainConfig.mk_loop_state 5000 None)
  = [newCompatError "Homestead fork block" (Some 1000) (Some 2000);
     newCompatError "EIP150 fork block" (Some 100) (Some 200)]
  /\ ChainConfig.CheckCompatible two_pass_stored two_pass_new 5000
     = ChainConfig.Returned
         (Some (newCompatError "EIP150 fork block" (Some 100) (Some 200)))
  /\ ConfigCompatError.RewindTo
       (newCompatError "EIP150 fork block" (Some 100) (Some 200)) = 99.
Proof. repeat split; vm_compute; reflexivity. Qed.

End CompatFacts.

(** ** The miner's extra-data setter *)

Module MinerFacts.

(** C9. For a slice [extra] (its length a Go [int], so below [2^64]),
    [SetExtra] returns an error iff [len(extra)] exceeds
    [MaximumExtraDataSize]; when it does the miner, and so the worker's
    extra-data, is left as it was; when it does not, nil is returned and
    the worker's extra-data is [extra], nothing else of the miner being
    touched. *)
Theorem SetExtra_spec (MaximumExtraDataSize : Z) (m : Miner.t)
    (extra : list Byte.byte) :
  Z.of_nat (length extra) < uint64_modulus ->
  (snd (Miner.SetExtra MaximumExtraDataSize m extra) <> None
   <-> Z.of_nat (length extra) > MaximumExtraDataSize)
  /\ (snd (Miner.SetExtra MaximumExtraDataSize m extra) <> None ->
      fst (Miner.SetExtra MaximumExtraDataSize m extra) = m)
  /\ (snd (Miner.SetExtra MaximumExtraDataSize m extra) = None ->
      Miner.worker.extra
        (Miner.worker (fst (Miner.SetExtra MaximumExtraDataSize m extra)))
      = extra
      /\ Miner.coinbase (fst (Miner.SetExtra MaximumExtraDataSize m extra))
         = Miner.coinbase m
      /\ Miner.mining (fst (Miner.SetExtra MaximumExtraDataSize m extra))
         = Miner.mining m
      /\ Miner.canStart (fst (Miner.SetExtra MaximumExtraDataSize m extra))
         = Miner.canStart m
      /\ Miner.shouldStart (fst (Miner.SetExtra MaximumExtraDataSize m extra))
         = Miner.shouldStart m).
Proof.
  intros Hlen. unfold Miner.SetExtra, to_uint64.
  rewrite Z.mod_small by lia.
  destruct (Z.gtb_spec (Z.of_nat (length extra)) MaximumExtraDataSize)
    as [Hgt | Hle]; simpl.
  - split; [split; [lia | discriminate] |].
    split; [reflexivity | discriminate].
  - split; [split; [congruence | lia] |].
    split; [congruence |]. intros _. repeat split.
Qed.

(** Instance of C9: three bytes against a limit of 32. *)
Lemma SetExtra_spec_witness :
  Miner.worker.extra
    (Miner.worker
       (fst (Miner.SetExtra 32
               (Miner.mk (Miner.worker.mk []) 0 0 1 0)
               [Byte.x61; Byte.x62; Byte.x63])))
  = [Byte.x61; Byte.x62; Byte.x63].
Proof.
  apply (SetExtra_spec 32 (Miner.mk (Miner.worker.mk []) 0 0 1 0)
           [Byte.x61; Byte.x62; Byte.x63]).
  - reflexivity.
  - reflexivity.
Defined.

End MinerFacts.

(** ** Committee helpers *)

Module XDPoSFacts.

Import XDPoS.

Lemma remove_one_Some (x : Address) (l r : list Address) :
  remove_one x l = Some r -> Permutation l (x :: r).
Proof.
  revert r. induction l as [| y l IH]; intros r Hrem; simpl in Hrem.
  - discriminate Hrem.
  - destruct (decide (x = y)) as [-> | Hne].
    + injection Hrem as <-. apply Permutation_refl.
    + destruct (remove_one x l) as [r' |]; [| discriminate Hrem].
      injection Hrem as <-.
      apply perm_trans with (y :: x :: r').
      * apply perm_skip. apply IH. reflexivity.
      * apply perm_swap.
Qed.

Lemma remove_one_In (x : Address) (l : list Address) :
  In x l -> exists r, remove_one x l = Some r.
Proof.
  induction l as [| y l IH]; intros Hin; [destruct Hin |].
  simpl. destruct (decide (x = y)) as [-> | Hne].
  - exists l. reflexivity.
  - destruct Hin as [-> | Hin]; [contradiction |].
    destruct (IH Hin) as (r & ->). exists (y :: r). reflexivity.
Qed.

(** The model decides equality of multisets. *)
Lemma compareSignersLists_Permutation (a b : list Address) :
  compareSignersLists a b = true <-> Permutation a b.
Proof.
  revert b. induction a as [| x a IH]; intros b; simpl.
  - destruct b as [| y b].
    + split; [intros _; apply perm_nil | reflexivity].
    + split; [discriminate |].
      intros Hp. apply Permutation_nil in Hp. discriminate Hp.
  - destruct (remove_one x b) as [b' |] eqn:Hrem.
    + apply remove_one_Some in Hrem. rewrite IH. split.
      * intros Hp. apply perm_trans with (x :: b').
        -- apply perm_skip. exact Hp.
        -- apply Permutation_sym. exact Hrem.
      * intros Hp. apply Permutation_cons_inv with x.
        apply perm_trans with b; [exact Hp | exact Hrem].
    + split; [discriminate |].
      intros Hp.
      assert (Hin : In x b).
      { apply Permutation_in with (x :: a); [exact Hp | left; reflexivity]. }
      destruct (remove_one_In x b Hin) as (r & Hr). congruence.
Qed.

Lemma compareSignersLists_false (a b : list Address) :
  ~ Permutation a b -> compareSignersLists a b = false.
Proof.
  intros Hnp. destruct (compareSignersLists a b) eqn:Hcmp; [| reflexivity].
  apply compareSignersLists_Permutation in Hcmp. contradiction.
Qed.

(** C7. [compareSignersLists] is reflexive (the empty list included),
    symmetric and order-independent, and it is false whenever the two lists
    differ in size or an identity is in one list and not in the other; the
    five cases of [TestCompareSignersLists] come out as the test expects. *)
Theorem compareSignersLists_spec :
  (forall X, compareSignersLists X X = true)
  /\ compareSignersLists [] [] = true
  /\ (forall a b, compareSignersLists a b = compareSignersLists b a)
  /\ (forall a b, Permutation a b -> compareSignersLists a b = true)
  /\ (forall a b, length a <> length b -> compareSignersLists a b = false)
  /\ (forall a b x,
        (In x a /\ ~ In x b) \/ (In x b /\ ~ In x a) ->
        compareSignersLists a b = false)
  /\ compareSignersLists list1 list2 = true
  /\ compareSignersLists list1 list3 = false
  /\ compareSignersLists [addr_c] [addr_c] = true
  /\ compareSignersLists [repeated_byte 0x61 16] [addr_c] = false.
Proof.
  split; [| split; [| split; [| split; [| split; [| split]]]]].
  - intros X. apply compareSignersLists_Permutation. apply Permutation_refl.
  - reflexivity.
  - intros a b. destruct (compareSignersLists b a) eqn:Hba.
    + apply compareSignersLists_Permutation.
      apply Permutation_sym, compareSignersLists_Permutation. exact Hba.
    + apply compareSignersLists_false. intros Hp.
      apply Permutation_sym, compareSignersLists_Permutation in Hp. congruence.
  - intros a b Hp. apply compareSignersLists_Permutation. exact Hp.
  - intros a b Hlen. apply compareSignersLists_false. intros Hp.
    apply Hlen. apply Permutation_length. exact Hp.
  - intros a b x Hx. apply compareSignersLists_false. intros Hp.
    destruct Hx as [(Hin & Hnot) | (Hin & Hnot)]; apply Hnot.
    + apply Permutation_in with a; assumption.
    + apply Permutation_in with b; [apply Permutation_sym |]; assumption.
  - repeat split; vm_compute; reflexivity.
Qed.

(** Instance of C7: a rotation of a three-element list. *)
Lemma compareSignersLists_spec_witness :
  compareSignersLists [addr_a; addr_b; addr_c] [addr_c; addr_a; addr_b] = true.
Proof.
  apply (proj1 (proj2 (proj2 (proj2 compareSignersLists_spec)))).
  apply Permutation_sym.
  apply (Permutation_cons_append [addr_a; addr_b] addr_c).
Defined.

End XDPoSFacts.

(** ** The certificate aggregator *)

Module AggregatorFacts.

Import Aggregator.

Lemma add_all_snoc (th : nat) (ms : list message) (m : message) :
  add_all th (ms ++ [m]) = pool_of (add th (add_all th ms) m).
Proof. unfold add_all. rewrite foldl_app. reflexivity. Qed.

Lemma signers_for_nil (k : N * option N) : signers_for k [] = ∅.
Proof. reflexivity. Qed.

Lemma signers_for_app (k : N * option N) (ms ms' : list message) :
  signers_for k (ms ++ ms') = signers_for k ms ∪ signers_for k ms'.
Proof.
  unfold signers_for. rewrite filter_app, fmap_app.
  apply list_to_set_app_L.
Qed.

Lemma signers_for_single (k : N * option N) (m : message) :
  signers_for k [m]
  = if decide (key_of m = k) then {[signerIdentity m]} else ∅.
Proof.
  unfold signers_for. destruct (decide (key_of m = k)) as [Hk | Hk].
  - rewrite filter_cons_True by exact Hk. rewrite filter_nil.
    apply list_to_set_singleton_L.
  - rewrite filter_cons_False by exact Hk. reflexivity.
Qed.

Lemma signers_for_mono (k : N * option N) (ms ms' : list message) :
  (size (signers_for k ms) <= size (signers_for k (ms ++ ms')))%nat.
Proof.
  rewrite signers_for_app. apply subseteq_size, union_subseteq_l.
Qed.

Lemma size_add_fresh (X : gset N) (x : N) :
  x ∉ X -> size (X ∪ {[x]}) = S (size X).
Proof.
  intros Hx. rewrite size_union by (apply disjoint_singleton_r; exact Hx).
  rewrite size_singleton. lia.
Qed.

Lemma size_add_old (X : gset N) (x : N) :
  x ∈ X -> X ∪ {[x]} = X.
Proof.
  intros Hx. rewrite union_comm_L.
  apply subseteq_union_1_L, singleton_subseteq_l. exact Hx.
Qed.

Lemma entry_at_insert (p : gmap (N * option N) entry) (k : N * option N)
    (e : entry) :
  entry_at (<[k:=e]> p) k = e.
Proof. unfold entry_at. rewrite lookup_insert_eq. reflexivity. Qed.

Lemma entry_at_add_other (th : nat) (p : gmap (N * option N) entry)
    (m : message) (k : N * option N) :
  key_of m <> k -> entry_at (pool_of (add th p m)) k = entry_at p k.
Proof.
  intros Hk. unfold add, entry_at.
  destruct (signers (default empty_entry (p !! key_of m)) !! signerIdentity m);
    simpl; [reflexivity |].
  rewrite lookup_insert_ne by exact Hk. reflexivity.
Qed.

(** What the aggregator holds after [ms]: for each key the signers seen
    for it, sealed once they are at least [th] (and one at least). *)
Lemma add_all_holds (th : nat) (ms : list message) (k : N * option N) :
  dom (signers (entry_at (add_all th ms) k)) = signers_for k ms
  /\ (sealed (entry_at (add_all th ms) k) = true
      <-> (th <= size (signers_for k ms))%nat
          /\ (0 < size (signers_for k ms))%nat).
Proof.
  induction ms as [| m ms IH] using rev_ind.
  - rewrite signers_for_nil, size_empty.
    change (add_all th []) with (∅ : gmap (N * option N) entry).
    unfold entry_at. rewrite lookup_empty.
    change (default empty_entry None) with empty_entry.
    unfold empty_entry. cbn [signers sealed]. rewrite dom_empty_L.
    split; [reflexivity |]. split; [discriminate | lia].
  - rewrite add_all_snoc, signers_for_app, signers_for_single.
    destruct (decide (key_of m = k)) as [Hk | Hk].
    2:{ rewrite entry_at_add_other by exact Hk.
        rewrite union_empty_r_L. exact IH. }
    subst k. destruct IH as [Hdom Hsealed].
    unfold add.
    destruct (signers (entry_at (add_all th ms) (key_of m)) !! signerIdentity m)
      as [sig |] eqn:Hlook; simpl.
    + assert (Hin : signerIdentity m ∈ signers_for (key_of m) ms).
      { rewrite <- Hdom. apply elem_of_dom. exists sig. exact Hlook. }
      rewrite (size_add_old _ _ Hin). split; [exact Hdom | exact Hsealed].
    + assert (Hnot : signerIdentity m ∉ signers_for (key_of m) ms).
      { rewrite <- Hdom. apply not_elem_of_dom. exact Hlook. }
      rewrite !entry_at_insert. cbn [signers sealed].
      rewrite dom_insert_L, Hdom.
      split; [apply union_comm_L |].
      rewrite (size_add_fresh _ _ Hnot).
      rewrite map_size_insert_None by exact Hlook.
      rewrite <- size_dom, Hdom.
      destruct (sealed (entry_at (add_all th ms) (key_of m))) eqn:Hs; simpl.
      * split; [intros _ | reflexivity].
        destruct (proj1 Hsealed eq_refl) as [Hth _]. lia.
      * rewrite Nat.leb_le. lia.
Qed.

(** The moment of formation: the message brings the count of distinct
    signers of its key from below the threshold to the threshold. *)
Lemma formed_at_iff (th : nat) (ms : list message) (m : message) :
  (0 < th)%nat ->
  formed_at th ms m = true
  <-> (size (signers_for (key_of m) ms) < th)%nat
      /\ (th <= size (signers_for (key_of m) (ms ++ [m])))%nat.
Proof.
  intros Hth. unfold formed_at.
  destruct (add_all_holds th ms (key_of m)) as [Hdom Hsealed].
  rewrite signers_for_app, signers_for_single, decide_True by reflexivity.
  unfold add.
  destruct (signers (entry_at (add_all th ms) (key_of m)) !! signerIdentity m)
    as [sig |] eqn:Hlook; simpl.
  - assert (Hin : signerIdentity m ∈ signers_for (key_of m) ms).
    { rewrite <- Hdom. apply elem_of_dom. exists sig. exact Hlook. }
    rewrite (size_add_old _ _ Hin). split; [discriminate | lia].
  - assert (Hnot : signerIdentity m ∉ signers_for (key_of m) ms).
    { rewrite <- Hdom. apply not_elem_of_dom. exact Hlook. }
    rewrite (size_add_fresh _ _ Hnot).
    rewrite map_size_insert_None by exact Hlook.
    rewrite <- size_dom, Hdom.
    rewrite andb_true_iff, negb_true_iff, Nat.leb_le.
    destruct (sealed (entry_at (add_all th ms) (key_of m))) eqn:Hs.
    + destruct (proj1 Hsealed eq_refl) as [Hge _].
      split; [intros [Hf _]; discriminate Hf | lia].
    + split; [intros [_ Hle] | intros [Hlt Hle]; split; [reflexivity | exact Hle]].
      split; [| exact Hle].
      destruct (Nat.lt_ge_cases (size (signers_for (key_of m) ms)) th)
        as [Hlt | Hge]; [exact Hlt |].
      assert (Habs : false = true); [| discriminate Habs].
      apply Hsealed. lia.
Qed.

Lemma add_known_signer (th : nat) (ms : list message) (m : message) :
  signerIdentity m ∈ signers_for (key_of m) ms ->
  pool_of (add th (add_all th ms) m) = add_all th ms.
Proof.
  intros Hin.
  destruct (add_all_holds th ms (key_of m)) as [Hdom _].
  rewrite <- Hdom in Hin. apply elem_of_dom in Hin. destruct Hin as (sig & Hsig).
  unfold add. rewrite Hsig. reflexivity.
Qed.

(** C1.  With a positive threshold, and for every sequence [ms] of
    messages handed to the aggregator and every further message [m]:
    [certificateFormed] is true for [m] exactly when [m] brings the count
    of distinct signers of its key from below [certThreshold] to
    [certThreshold]; it is false as long as the key has fewer distinct
    signers, whatever follows; re-adding a signer already counted for the
    key leaves the count and the aggregator as they were and forms
    nothing; and once a certificate has formed for a key no later message
    for that key forms one again. *)
Theorem certificate_forms_exactly (certThreshold : nat) :
  (0 < certThreshold)%nat ->
  (forall ms m,
      formed_at certThreshold ms m = true
      <-> (size (signers_for (key_of m) ms) < certThreshold)%nat
          /\ (certThreshold <= size (signers_for (key_of m) (ms ++ [m])))%nat)
  /\ (forall ms m ms',
        (size (signers_for (key_of m) (ms ++ m :: ms')) < certThreshold)%nat ->
        formed_at certThreshold ms m = false)
  /\ (forall ms m,
        signerIdentity m ∈ signers_for (key_of m) ms ->
        signers_for (key_of m) (ms ++ [m]) = signers_for (key_of m) ms
        /\ formed_at certThreshold ms m = false
        /\ add_all certThreshold (ms ++ [m]) = add_all certThreshold ms)
  /\ (forall ms m ms' m',
        formed_at certThreshold ms m = true ->
        key_of m' = key_of m ->
        formed_at certThreshold (ms ++ m :: ms') m' = false).
Proof.
  intros Hth.
  split; [intros ms m; apply formed_at_iff; exact Hth |].
  split; [| split].
  - intros ms m ms' Hfew.
    destruct (formed_at certThreshold ms m) eqn:Hformed; [| reflexivity].
    apply formed_at_iff in Hformed; [| exact Hth].
    destruct Hformed as [_ Hreached].
    pose proof (signers_for_mono (key_of m) (ms ++ [m]) ms') as Hmono.
    rewrite <- app_assoc in Hmono. simpl in Hmono. lia.
  - intros ms m Hin.
    assert (Hsame : signers_for (key_of m) (ms ++ [m])
                    = signers_for (key_of m) ms).
    { rewrite signers_for_app, signers_for_single, decide_True by reflexivity.
      apply size_add_old. exact Hin. }
    split; [exact Hsame |]. split.
    + destruct (formed_at certThreshold ms m) eqn:Hformed; [| reflexivity].
      apply formed_at_iff in Hformed; [| exact Hth].
      rewrite Hsame in Hformed. lia.
    + rewrite add_all_snoc. apply add_known_signer. exact Hin.
  - intros ms m ms' m' Hformed Hkey.
    apply formed_at_iff in Hformed; [| exact Hth].
    destruct Hformed as [_ Hreached].
    destruct (formed_at certThreshold (ms ++ m :: ms') m') eqn:Hagain;
      [| reflexivity].
    apply formed_at_iff in Hagain; [| exact Hth].
    destruct Hagain as [Hbelow _]. rewrite Hkey in Hbelow.
    pose proof (signers_for_mono (key_of m) (ms ++ [m]) ms') as Hmono.
    rewrite <- app_assoc in Hmono. simpl in Hmono. lia.
Qed.

(** Instance of C1, the scenario of the specification: with a threshold of
    3 the vote of member 3, after those of the members 1 and 2, forms the
    certificate. *)
Lemma certificate_forms_exactly_witness :
  formed_at 3 [scenario_vote 1; scenario_vote 2] (scenario_vote 3) = true.
Proof.
  apply (proj1 (certificate_forms_exactly 3 (Nat.lt_0_succ 2))).
  split; vm_compute; lia.
Defined.

(** The scenario of the specification, run: no certificate on the votes of
    the members 1 and 2, the certificate on the vote of member 3, nothing
    on a second vote of member 1 or on a vote of member 4 afterwards. *)
Example certificate_scenario :
  formed_at 3 [] (scenario_vote 1) = false
  /\ formed_at 3 [scenario_vote 1] (scenario_vote 2) = false
  /\ formed_at 3 [scenario_vote 1; scenario_vote 2] (scenario_vote 3) = true
  /\ formed_at 3 [scenario_vote 1; scenario_vote 2; scenario_vote 3]
       (scenario_vote 1) = false
  /\ formed_at 3 [scenario_vote 1; scenario_vote 2; scenario_vote 3]
       (scenario_vote 4) = false
  /\ verdict_of (add 3 (add_all 3 [scenario_vote 1]) (scenario_vote 1))
     = Duplicate
  /\ verdict_of (add 3 (add_all 3 [scenario_vote 1])
                   (mk_message 5 (Some 0xabcd%N) 1 7))
     = Equivocation.
Proof. repeat split; vm_compute; reflexivity. Qed.

End AggregatorFacts.

(** ** Further properties of params/config.go *)

Module ParamsMoreFacts.

Import Params ParamsFacts CompatFacts.

(** X1. Fork activation is monotonic: a fork predicate that is true at
    block [n] is true at every later block. *)
Theorem fork_predicates_monotonic (c : ChainConfig.t) (n n' : Z) :
  n <= n' ->
  Forall (fun pf : (ChainConfig.t -> option Z -> bool)
                   * (ChainConfig.t -> option Z) =>
            fst pf c (Some n) = true -> fst pf c (Some n') = true)
         ChainConfig.forkPredicates.
Proof.
  intros Hle. unfold ChainConfig.forkPredicates.
  repeat apply List.Forall_cons; try apply List.Forall_nil; simpl;
    apply isForked_mono; exact Hle.
Qed.

Lemma fork_predicates_monotonic_witness :
  ChainConfig.IsEIP150 MainnetChainConfig (Some 3000000) = true.
Proof.
  pose proof (fork_predicates_monotonic MainnetChainConfig 2463000 3000000)
    as H.
  assert (Hle : 2463000 <= 3000000) by lia.
  specialize (H Hle). rewrite List.Forall_forall in H.
  apply (H (ChainConfig.IsEIP150, ChainConfig.EIP150Block)).
  - unfold ChainConfig.forkPredicates. do 2 right. left. reflexivity.
  - reflexivity.
Defined.

Lemma GasTable_cases (c : ChainConfig.t) (n : Z) :
  ChainConfig.gas_phase (ChainConfig.GasTable c (Some n))
  = if ChainConfig.IsEIP158 c (Some n) then 2
    else if ChainConfig.IsEIP150 c (Some n) then 1 else 0.
Proof.
  unfold ChainConfig.GasTable.
  destruct (ChainConfig.IsEIP158 c (Some n)); [reflexivity |].
  destruct (ChainConfig.IsEIP150 c (Some n)); reflexivity.
Qed.

(** X2. The gas table never goes back to an earlier phase as the chain
    grows, whatever the order of the two activation heights; on a nil
    block number it is the Homestead table; and it is the EIP158 table
    exactly from the EIP158 height on, also when EIP150 is absent or
    later. *)
Theorem GasTable_phases (c : ChainConfig.t) :
  ChainConfig.GasTable c None = GasTableHomestead
  /\ (forall n,
        ChainConfig.GasTable c (Some n) = GasTableEIP158
        <-> exists a, ChainConfig.EIP158Block c = Some a /\ a <= n)
  /\ (forall n n',
        n <= n' ->
        ChainConfig.gas_phase (ChainConfig.GasTable c (Some n))
        <= ChainConfig.gas_phase (ChainConfig.GasTable c (Some n'))).
Proof.
  split; [reflexivity |]. split.
  - intros n. rewrite <- isForked_true_iff.
    unfold ChainConfig.GasTable, ChainConfig.IsEIP158, ChainConfig.IsEIP150.
    destruct (isForked (ChainConfig.EIP158Block c) (Some n)).
    + split; reflexivity.
    + destruct (isForked (ChainConfig.EIP150Block c) (Some n));
        split; discriminate.
  - intros n n' Hle. rewrite !GasTable_cases.
    unfold ChainConfig.IsEIP158, ChainConfig.IsEIP150.
    pose proof (isForked_mono (ChainConfig.EIP158Block c) n n' Hle) as H158.
    pose proof (isForked_mono (ChainConfig.EIP150Block c) n n' Hle) as H150.
    destruct (isForked (ChainConfig.EIP158Block c) (Some n));
      destruct (isForked (ChainConfig.EIP158Block c) (Some n'));
      destruct (isForked (ChainConfig.EIP150Block c) (Some n));
      destruct (isForked (ChainConfig.EIP150Block c) (Some n'));
      try lia;
      try (specialize (H158 eq_refl); discriminate H158);
      try (specialize (H150 eq_refl); discriminate H150).
Qed.

Lemma GasTable_phases_witness :
  ChainConfig.gas_phase (ChainConfig.GasTable MainnetChainConfig (Some 2500000))
  <= ChainConfig.gas_phase (ChainConfig.GasTable MainnetChainConfig (Some 2700000)).
Proof.
  apply (proj2 (proj2 (GasTable_phases MainnetChainConfig))). lia.
Defined.

(** X3. [Rules] never hands out a nil chain id: a nil one in the
    configuration becomes 0, any other is kept; its Petersburg and
    Istanbul flags always agree; and on a nil block number every flag is
    false. *)
Theorem Rules_edges (TIPXDCXCancellationFee : option Z) (c : ChainConfig.t)
    (num : option Z) :
  (exists id,
      Rules.ChainId (ChainConfig.Rules TIPXDCXCancellationFee c num) = Some id
      /\ (ChainConfig.ChainId c = None -> id = 0)
      /\ (forall x, ChainConfig.ChainId c = Some x -> id = x))
  /\ Rules.IsPetersburg (ChainConfig.Rules TIPXDCXCancellationFee c num)
     = Rules.IsIstanbul (ChainConfig.Rules TIPXDCXCancellationFee c num)
  /\ (num = None ->
      forall flag,
        In flag [Rules.IsHomestead; Rules.IsEIP150; Rules.IsEIP155;
                 Rules.IsEIP158; Rules.IsByzantium; Rules.IsConstantinople;
                 Rules.IsPetersburg; Rules.IsIstanbul] ->
        flag (ChainConfig.Rules TIPXDCXCancellationFee c num) = false).
Proof.
  split; [| split; [reflexivity |]].
  - unfold ChainConfig.Rules. simpl.
    destruct (ChainConfig.ChainId c) as [x |].
    + exists x. split; [reflexivity |]. split; [discriminate |].
      intros y [= <-]. reflexivity.
    + exists 0. split; [reflexivity |]. split; [reflexivity | discriminate].
  - intros -> flag Hin. simpl in Hin.
    repeat (destruct Hin as [<- | Hin]; [apply isForked_nil_head |]).
    destruct Hin.
Qed.

Lemma Rules_edges_witness :
  Rules.IsByzantium (ChainConfig.Rules (Some 100) MainnetChainConfig None)
  = false.
Proof.
  apply (proj2 (proj2 (Rules_edges (Some 100) MainnetChainConfig None)));
    [reflexivity |].
  do 4 right. left. reflexivity.
Defined.

(** X4. The switch block itself is still a "v1" block and the block after
    it is the first "v2" block; a nil block number makes the call panic
    when a switch block is configured, and is harmless ("v1") when the V2
    section or its switch block is absent. *)
Theorem BlockConsensusVersion_edges (c : XDPoSConfig.t) :
  (forall v2 switchBlock,
      XDPoSConfig.V2 c = Some v2 ->
      V2.SwitchBlock v2 = Some switchBlock ->
      XDPoSConfig.BlockConsensusVersion c (Some switchBlock)
      = Some ConsensusEngineVersion1
      /\ XDPoSConfig.BlockConsensusVersion c (Some (switchBlock + 1))
         = Some ConsensusEngineVersion2
      /\ XDPoSConfig.BlockConsensusVersion c None = None)
  /\ (forall num,
        XDPoSConfig.V2 c = None
        \/ (exists v2, XDPoSConfig.V2 c = Some v2 /\ V2.SwitchBlock v2 = None) ->
        XDPoSConfig.BlockConsensusVersion c num = Some ConsensusEngineVersion1).
Proof.
  unfold XDPoSConfig.BlockConsensusVersion. split.
  - intros v2 sb -> ->.
    repeat split.
    + destruct (Z.gtb_spec sb sb); [lia | reflexivity].
    + destruct (Z.gtb_spec (sb + 1) sb); [reflexivity | lia].
  - intros num [-> | (v2 & -> & ->)]; reflexivity.
Qed.

Lemma BlockConsensusVersion_edges_witness :
  XDPoSConfig.BlockConsensusVersion TestXDPoSMockConfig (Some 900)
  = Some ConsensusEngineVersion1.
Proof.
  apply (proj1 (BlockConsensusVersion_edges TestXDPoSMockConfig)
           TestXDPoSV2Config 900); reflexivity.
Defined.


Lemma conflict_at_mono (c newcfg : ChainConfig.t) (h h' : Z) :
  h <= h' ->
  ChainConfig.conflict_at c newcfg h -> ChainConfig.conflict_at c newcfg h'.
Proof.
  intros Hle [(f & Hin & Hne & Hbefore) | [(Hd & Hne) | (He & Hne)]].
  - left. exists f. split; [exact Hin |]. split; [exact Hne |].
    unfold ChainConfig.at_or_before in *.
    destruct Hbefore as [(a & Ha & Hah) | (a & Ha & Hah)];
      [left | right]; exists a; (split; [exact Ha | lia]).
  - right; left. split; [| exact Hne].
    apply (isForked_mono _ h h' Hle). exact Hd.
  - right; right. split; [| exact Hne].
    apply (isForked_mono _ h h' Hle). exact He.
Qed.

Lemma checkCompatible_None_below (c newcfg : ChainConfig.t) (h h' : Z) :
  h' <= h ->
  ChainConfig.checkCompatible c newcfg (Some h) = None ->
  ChainConfig.checkCompatible c newcfg (Some h') = None.
Proof.
  intros Hle Hnone.
  destruct (ChainConfig.checkCompatible c newcfg (Some h')) as [e |] eqn:Hh';
    [| reflexivity].
  exfalso.
  assert (Hconf : ChainConfig.conflict_at c newcfg h').
  { apply checkCompatible_conflict_iff. rewrite Hh'. discriminate. }
  apply (conflict_at_mono c newcfg h' h Hle) in Hconf.
  apply checkCompatible_conflict_iff in Hconf. contradiction.
Qed.

(** X5. Compatibility is downward closed: two configurations that show no
    conflict in a pass at height [h] show none at any lower height, and
    [CheckCompatible] returns nil there. *)
Theorem CheckCompatible_downward (c newcfg : ChainConfig.t) (h h' : Z) :
  h' <= h ->
  ChainConfig.checkCompatible c newcfg (Some h) = None ->
  ChainConfig.checkCompatible c newcfg (Some h') = None
  /\ ChainConfig.CheckCompatible c newcfg h' = ChainConfig.Returned None.
Proof.
  intros Hle Hnone.
  pose proof (checkCompatible_None_below c newcfg h h' Hle Hnone) as Hlow.
  split; [exact Hlow | apply CheckCompatible_none; exact Hlow].
Qed.

Lemma CheckCompatible_downward_witness :
  ChainConfig.CheckCompatible two_pass_stored two_pass_new 50
  = ChainConfig.Returned None.
Proof.
  apply (CheckCompatible_downward two_pass_stored two_pass_new 99 50);
    [lia | reflexivity].
Defined.

(** X6. A configuration is compatible with itself at every height. *)
Theorem CheckCompatible_reflexive (c : ChainConfig.t) (h : Z) :
  ChainConfig.CheckCompatible c c h = ChainConfig.Returned None.
Proof.
  apply CheckCompatible_none.
  destruct (ChainConfig.checkCompatible c c (Some h)) as [e |] eqn:Hcheck;
    [| reflexivity].
  exfalso.
  assert (Hconf : ChainConfig.conflict_at c c h).
  { apply checkCompatible_conflict_iff. rewrite Hcheck. discriminate. }
  destruct Hconf as [(f & _ & Hne & _) | [(_ & Hne) | (_ & Hne)]];
    apply Hne; reflexivity.
Qed.

Lemma configNumEqual_sym (x y : option Z) :
  configNumEqual x y = configNumEqual y x.
Proof.
  destruct x as [a |], y as [b |]; simpl; try reflexivity.
  apply Z.eqb_sym.
Qed.

Lemma isForkIncompatible_sym (s1 s2 head : option Z) :
  isForkIncompatible s1 s2 head = isForkIncompatible s2 s1 head.
Proof.
  unfold isForkIncompatible.
  rewrite (orb_comm (isForked s1 head)), (configNumEqual_sym s1 s2).
  reflexivity.
Qed.

Lemma newCompatError_swap (what : string) (a b : option Z) :
  newCompatError what b a = ChainConfig.swap_error (newCompatError what a b).
Proof.
  unfold ChainConfig.swap_error, newCompatError. simpl. f_equal.
  destruct a as [x |], b as [y |]; try reflexivity.
  destruct (Z.ltb_spec x y), (Z.ltb_spec y x); try reflexivity; try lia.
  assert (x = y) by lia. subst y. reflexivity.
Qed.

Lemma checkCompatible_swap (c newcfg : ChainConfig.t) (head : option Z) :
  ChainConfig.DAOForkSupport c = ChainConfig.DAOForkSupport newcfg ->
  ChainConfig.ChainId c = ChainConfig.ChainId newcfg ->
  ChainConfig.checkCompatible newcfg c head
  = ChainConfig.swap_error <$> ChainConfig.checkCompatible c newcfg head.
Proof.
  intros Hflag Hid. unfold ChainConfig.checkCompatible.
  rewrite (isForkIncompatible_sym (ChainConfig.HomesteadBlock newcfg)),
    (isForkIncompatible_sym (ChainConfig.DAOForkBlock newcfg)),
    (isForkIncompatible_sym (ChainConfig.EIP150Block newcfg)),
    (isForkIncompatible_sym (ChainConfig.EIP155Block newcfg)),
    (isForkIncompatible_sym (ChainConfig.EIP158Block newcfg)),
    (isForkIncompatible_sym (ChainConfig.ByzantiumBlock newcfg)),
    (isForkIncompatible_sym (ChainConfig.ConstantinopleBlock newcfg)).
  rewrite Hflag, Hid, eqb_reflx,
    (proj2 (configNumEqual_true_iff _ _) eq_refl).
  simpl negb. rewrite !andb_false_r.
  repeat match goal with
         | |- context [if isForkIncompatible ?a ?b ?h then _ else _] =>
             destruct (isForkIncompatible a b h)
         end;
    simpl; try reflexivity; f_equal; apply newCompatError_swap.
Qed.

Lemma loop_swap (c newcfg : ChainConfig.t) (fuel : nat) (b : Z)
    (l : option ConfigCompatError.t) :
  ChainConfig.DAOForkSupport c = ChainConfig.DAOForkSupport newcfg ->
  ChainConfig.ChainId c = ChainConfig.ChainId newcfg ->
  ChainConfig.loop newcfg c fuel
    (ChainConfig.mk_loop_state b (ChainConfig.swap_error <$> l))
  = match ChainConfig.loop c newcfg fuel (ChainConfig.mk_loop_state b l) with
    | ChainConfig.Returned r => ChainConfig.Returned (ChainConfig.swap_error <$> r)
    | ChainConfig.OutOfFuel => ChainConfig.OutOfFuel
    end.
Proof.
  intros Hflag Hid. revert b l.
  induction fuel as [| fuel IH]; intros b l; [reflexivity |].
  rewrite !loop_S. unfold ChainConfig.loop_step. simpl.
  rewrite (checkCompatible_swap c newcfg (Some b) Hflag Hid).
  destruct (ChainConfig.checkCompatible c newcfg (Some b)) as [err |];
    [| reflexivity].
  simpl.
  assert (Hrep : ChainConfig.rewind_repeats (ChainConfig.swap_error <$> l)
                   (ChainConfig.swap_error err)
                 = ChainConfig.rewind_repeats l err).
  { destruct l; reflexivity. }
  rewrite Hrep.
  destruct (ChainConfig.rewind_repeats l err); [reflexivity |].
  apply (IH (ConfigCompatError.RewindTo err) (Some err)).
Qed.

(** X7. For two configurations with the same DAO fork support flag and
    the same chain id the check does not depend on which of the two is the
    stored one: exchanging them gives nil where it gave nil, and otherwise
    the same conflict with its two heights exchanged, so the same rewind
    height. *)
Theorem CheckCompatible_exchange (c newcfg : ChainConfig.t) (h : Z)
    (r : option ConfigCompatError.t) :
  ChainConfig.DAOForkSupport c = ChainConfig.DAOForkSupport newcfg ->
  ChainConfig.ChainId c = ChainConfig.ChainId newcfg ->
  ChainConfig.CheckCompatible c newcfg h = ChainConfig.Returned r ->
  ChainConfig.CheckCompatible newcfg c h
  = ChainConfig.Returned (ChainConfig.swap_error <$> r)
  /\ (ConfigCompatError.RewindTo <$> (ChainConfig.swap_error <$> r))
     = (ConfigCompatError.RewindTo <$> r).
Proof.
  intros Hflag Hid Hrun. split; [| destruct r; reflexivity].
  unfold ChainConfig.CheckCompatible in *.
  pose proof (loop_swap c newcfg (ChainConfig.enough_fuel h) h None Hflag Hid)
    as Hswap.
  rewrite Hrun in Hswap. exact Hswap.
Qed.

Lemma CheckCompatible_exchange_witness :
  ChainConfig.CheckCompatible two_pass_new two_pass_stored 5000
  = ChainConfig.Returned
      (Some (newCompatError "EIP150 fork block" (Some 200) (Some 100))).
Proof.
  apply (CheckCompatible_exchange two_pass_stored two_pass_new 5000
           (Some (newCompatError "EIP150 fork block" (Some 100) (Some 200))));
    reflexivity.
Defined.


Lemma lower_height_side (s1 s2 : option Z) (l : Z) :
  ChainConfig.lower_height s1 s2 = Some l -> s1 = Some l \/ s2 = Some l.
Proof.
  destruct s1 as [a |], s2 as [b |]; simpl; intros [= <-]; auto.
  destruct (Z.min_spec a b) as [[_ ->] | [_ ->]]; auto.
Qed.

(** An incompatible field stays incompatible from the lower of its two
    heights on. *)
Lemma incompatible_persists (s1 s2 : option Z) (b : Z) :
  isForkIncompatible s1 s2 (Some b) = true ->
  exists l, ChainConfig.lower_height s1 s2 = Some l /\ l <= b
            /\ forall h', l <= h' -> isForkIncompatible s1 s2 (Some h') = true.
Proof.
  unfold isForkIncompatible. intros H.
  apply andb_true_iff in H. destruct H as [Hforked Hne].
  apply orb_true_iff in Hforked.
  destruct (lower_height_forked s1 s2 b Hforked) as (l & Hl & Hle).
  exists l. split; [exact Hl |]. split; [exact Hle |].
  intros h' Hh'. rewrite Hne, andb_true_r. apply orb_true_iff.
  destruct (lower_height_side s1 s2 l Hl) as [-> | ->]; [left | right];
    apply isForked_true_iff; exists l; (split; [reflexivity | exact Hh']).
Qed.

(** A fork that is active in the stored configuration, on whose height the
    two configurations agree, stays active from that height on. *)
Lemma agreed_fork_persists (s1 s2 : option Z) (b : Z) :
  isForkIncompatible s1 s2 (Some b) = false ->
  isForked s1 (Some b) = true ->
  exists l, ChainConfig.lower_height s1 s2 = Some l /\ l <= b
            /\ forall h', l <= h' -> isForked s1 (Some h') = true.
Proof.
  unfold isForkIncompatible. intros Hinc Hforked.
  rewrite Hforked in Hinc. simpl in Hinc.
  apply negb_false_iff, configNumEqual_true_iff in Hinc. subst s2.
  apply isForked_true_iff in Hforked. destruct Hforked as (d & -> & Hd).
  exists d.
  split; [simpl; rewrite Z.min_id; reflexivity |]. split; [exact Hd |].
  intros h' Hh'. apply isForked_true_iff. exists d.
  split; [reflexivity | exact Hh'].
Qed.

(** A conflict reported by a pass is reported, by this or by an earlier
    test, in every pass at or above the lower of its two heights. *)
Lemma checkCompatible_persists (c newcfg : ChainConfig.t) (b : Z)
    (e : ConfigCompatError.t) :
  ChainConfig.checkCompatible c newcfg (Some b) = Some e ->
  exists l,
    ChainConfig.lower_height (ConfigCompatError.StoredConfig e)
      (ConfigCompatError.NewConfig e) = Some l
    /\ l <= b
    /\ forall h', l <= h' ->
         ChainConfig.checkCompatible c newcfg (Some h') <> None.
Proof.
  unfold ChainConfig.checkCompatible at 1.
  repeat match goal with
         | |- context [if ?t then _ else _] => destruct t eqn:?
         end;
    intros Heq; try discriminate Heq; injection Heq as <-;
    change (ConfigCompatError.StoredConfig (newCompatError ?w ?x ?y)) with x;
    change (ConfigCompatError.NewConfig (newCompatError ?w ?x ?y)) with y;
    try match goal with
        | H : isForkIncompatible (?f _) (?f _) _ = true |- _ =>
            destruct (incompatible_persists _ _ _ H) as (l & Hl & Hle & Hper);
            exists l; split; [exact Hl |]; split; [exact Hle |];
            intros h' Hh'; apply checkCompatible_conflict_iff;
            left; exists f; split;
            [unfold ChainConfig.forkFields; simpl; tauto
            | apply isForkIncompatible_iff, Hper; exact Hh']
        end.
  - match goal with
    | H : (_ && _)%bool = true |- _ =>
        apply andb_true_iff in H; destruct H as [Hd Hne]
    end.
    apply negb_true_iff, eqb_false_iff in Hne.
    match goal with
    | H : isForkIncompatible (ChainConfig.DAOForkBlock c) _ _ = false |- _ =>
        destruct (agreed_fork_persists _ _ _ H Hd) as (l & Hl & Hle & Hper)
    end.
    exists l. split; [exact Hl |]. split; [exact Hle |].
    intros h' Hh'. apply checkCompatible_conflict_iff.
    right; left. split; [apply Hper; exact Hh' | exact Hne].
  - match goal with
    | H : (_ && _)%bool = true |- _ =>
        apply andb_true_iff in H; destruct H as [He Hne]
    end.
    apply negb_true_iff, configNumEqual_false_iff in Hne.
    match goal with
    | H : isForkIncompatible (ChainConfig.EIP158Block c) _ _ = false |- _ =>
        destruct (agreed_fork_persists _ _ _ H He) as (l & Hl & Hle & Hper)
    end.
    exists l. split; [exact Hl |]. split; [exact Hle |].
    intros h' Hh'. apply checkCompatible_conflict_iff.
    right; right. split; [apply Hper; exact Hh' | exact Hne].
Qed.

(** What is known of a conflict that [CheckCompatible] returns. *)
Lemma CheckCompatible_returned (c newcfg : ChainConfig.t) (h : Z)
    (e : ConfigCompatError.t) :
  0 <= h < uint64_modulus ->
  ChainConfig.CheckCompatible c newcfg h = ChainConfig.Returned (Some e) ->
  ChainConfig.settled c newcfg e
  /\ exists b, 0 <= b <= h
               /\ ChainConfig.checkCompatible c newcfg (Some b) = Some e.
Proof.
  intros Hh Hret.
  pose proof (loop_from_start c newcfg (ChainConfig.enough_fuel h) h Hh
                (Nat.le_refl _)) as Hrun.
  fold (ChainConfig.CheckCompatible c newcfg h) in Hrun.
  destruct (ChainConfig.checkCompatible c newcfg (Some h)) as [err |].
  - destruct Hrun as (e0 & Hret0 & Hset & pre & post & Hfnd & _).
    rewrite Hret in Hret0. injection Hret0 as <-.
    split; [exact Hset |].
    apply (found_checked c newcfg (ChainConfig.enough_fuel h)
             (ChainConfig.mk_loop_state h None)); [exact Hh |].
    rewrite Hfnd. apply in_or_app. right. left. reflexivity.
  - destruct Hrun as (Hret0 & _). rewrite Hret in Hret0. discriminate Hret0.
Qed.

(** After a conflict with a positive rewind height, a pass at that height
    finds nothing. *)
Lemma settled_positive (c newcfg : ChainConfig.t) (e : ConfigCompatError.t) :
  0 < ConfigCompatError.RewindTo e < uint64_modulus ->
  ChainConfig.settled c newcfg e ->
  ChainConfig.checkCompatible c newcfg (Some (ConfigCompatError.RewindTo e))
  = None.
Proof.
  intros Hpos [Hnone | (e' & Hsome & Hsame)]; [exact Hnone |].
  assert (Hrange : 0 <= ConfigCompatError.RewindTo e < uint64_modulus) by lia.
  destruct (checkCompatible_rewind c newcfg _ e' Hrange Hsome)
    as (_ & _ & Hstrict).
  lia.
Qed.

(** X8. Rewinding resolves the conflict: when [CheckCompatible] returns a
    conflict with a positive [RewindTo], the two configurations are
    compatible at that height and at every height below it. *)
Theorem CheckCompatible_rewind_resolves (c newcfg : ChainConfig.t) (h : Z)
    (e : ConfigCompatError.t) :
  0 <= h < uint64_modulus ->
  ChainConfig.CheckCompatible c newcfg h = ChainConfig.Returned (Some e) ->
  0 < ConfigCompatError.RewindTo e ->
  forall h', h' <= ConfigCompatError.RewindTo e ->
    ChainConfig.CheckCompatible c newcfg h' = ChainConfig.Returned None.
Proof.
  intros Hh Hret Hpos h' Hh'.
  destruct (CheckCompatible_returned c newcfg h e Hh Hret)
    as (Hset & b & Hb & Hcheck).
  destruct (checkCompatible_rewind c newcfg b e ltac:(lia) Hcheck)
    as (_ & Hrange & _).
  apply CheckCompatible_none.
  apply (checkCompatible_None_below c newcfg (ConfigCompatError.RewindTo e) h' Hh').
  apply settled_positive; [lia | exact Hset].
Qed.

Lemma CheckCompatible_rewind_resolves_witness :
  ChainConfig.CheckCompatible two_pass_stored two_pass_new 99
  = ChainConfig.Returned None.
Proof.
  apply (CheckCompatible_rewind_resolves two_pass_stored two_pass_new 5000
           (newCompatError "EIP150 fork block" (Some 100) (Some 200))).
  - apply in_uint64_range. reflexivity.
  - reflexivity.
  - reflexivity.
  - vm_compute. discriminate.
Defined.

(** X9. The conflict returned is the lowest there is: no pass, at any
    [uint64] height, reports a conflict with a lower rewind height. *)
Theorem CheckCompatible_lowest (c newcfg : ChainConfig.t) (h : Z)
    (e : ConfigCompatError.t) :
  0 <= h < uint64_modulus ->
  ChainConfig.CheckCompatible c newcfg h = ChainConfig.Returned (Some e) ->
  forall b e',
    0 <= b < uint64_modulus ->
    ChainConfig.checkCompatible c newcfg (Some b) = Some e' ->
    ConfigCompatError.RewindTo e <= ConfigCompatError.RewindTo e'.
Proof.
  intros Hh Hret b e' Hb Hcheck'.
  destruct (CheckCompatible_returned c newcfg h e Hh Hret)
    as (Hset & b0 & Hb0 & Hcheck).
  destruct (checkCompatible_rewind c newcfg b0 e ltac:(lia) Hcheck)
    as (_ & Hrange & _).
  destruct (checkCompatible_rewind c newcfg b e' Hb Hcheck')
    as (Hrew' & Hrange' & _).
  destruct (Z.le_gt_cases (ConfigCompatError.RewindTo e)
              (ConfigCompatError.RewindTo e')) as [Hle | Hgt]; [exact Hle |].
  exfalso.
  assert (Hnone : ChainConfig.checkCompatible c newcfg
                    (Some (ConfigCompatError.RewindTo e)) = None).
  { apply settled_positive; [lia | exact Hset]. }
  destruct (checkCompatible_persists c newcfg b e' Hcheck')
    as (l & Hl & _ & Hper).
  apply (Hper (ConfigCompatError.RewindTo e)); [| exact Hnone].
  unfold ChainConfig.rewind_target in Hrew'. rewrite Hl in Hrew'.
  destruct (Z.ltb_spec 0 l); lia.
Qed.

Lemma CheckCompatible_lowest_witness :
  ConfigCompatError.RewindTo
    (newCompatError "EIP150 fork block" (Some 100) (Some 200))
  <= ConfigCompatError.RewindTo
       (newCompatError "Homestead fork block" (Some 1000) (Some 2000)).
Proof.
  apply (CheckCompatible_lowest two_pass_stored two_pass_new 5000
           (newCompatError "EIP150 fork block" (Some 100) (Some 200))
           ltac:(apply in_uint64_range; reflexivity) eq_refl
           7000 (newCompatError "Homestead fork block" (Some 1000) (Some 2000))).
  - apply in_uint64_range. reflexivity.
  - reflexivity.
Defined.

End ParamsMoreFacts.

(** ** The mining life cycle *)

Module MinerLifecycleFacts.

Import Miner.

Lemma worker_started_snoc (cs : list worker_call) (c : worker_call) :
  worker_started (cs ++ [c])
  = match c with
    | call_start => true
    | call_stop => false
    | _ => worker_started cs
    end.
Proof. unfold worker_started. rewrite foldl_app. reflexivity. Qed.

Lemma worker_started_start (cs : list worker_call) :
  worker_started (cs ++ [call_start; call_commitNewWork]) = true.
Proof.
  change (cs ++ [call_start; call_commitNewWork])
    with (cs ++ [call_start] ++ [call_commitNewWork]).
  rewrite app_assoc, !worker_started_snoc; reflexivity.
Qed.

Lemma New_invariant (w : worker.t) : lifecycle_invariant w (New w).
Proof.
  unfold lifecycle_invariant, New. simpl.
  repeat split; auto.
Qed.

Lemma Start_invariant (w : worker.t) (s : running) (coinbase : Z) :
  lifecycle_invariant w s -> lifecycle_invariant w (Start s coinbase).
Proof.
  unfold lifecycle_invariant, Start, SetEtherbase, Mining.
  intros (Hm & Hc & Hs & Hsync & Hw & Hworker). simpl.
  destruct (Z.eqb_spec (canStart (miner s)) 0) as [Hzero | Hnonzero]; simpl.
  - rewrite worker_started_snoc. repeat split; auto.
  - rewrite worker_started_start.
    repeat split; auto; intros Habs; contradiction.
Qed.

Lemma Stop_invariant (w : worker.t) (s : running) :
  lifecycle_invariant w s -> lifecycle_invariant w (Stop s).
Proof.
  unfold lifecycle_invariant, Stop, Mining.
  intros (Hm & Hc & Hs & Hsync & Hw & Hworker). simpl.
  rewrite worker_started_snoc. repeat split; auto.
Qed.

Lemma update_invariant (w : worker.t) (s : running) (ev : downloader_event) :
  lifecycle_invariant w s -> lifecycle_invariant w (update s ev).
Proof.
  intros Hinv.
  assert (Hdone : lifecycle_invariant w
            (let shouldStart := shouldStart (miner s) =? 1 in
             let s1 := mk_running
                         (set_shouldStart (set_canStart (miner s) 1) 0)
                         (calls s) in
             if shouldStart then Start s1 (coinbase (miner s1)) else s1)).
  { assert (Hs1 : lifecycle_invariant w
              (mk_running (set_shouldStart (set_canStart (miner s) 1) 0)
                 (calls s))).
    { revert Hinv. unfold lifecycle_invariant, Mining. simpl.
      intros (Hm & Hc & Hs & Hsync & Hw & Hworker).
      repeat split; auto; intros Habs; discriminate Habs. }
    cbv zeta. destruct (shouldStart (miner s) =? 1); [| exact Hs1].
    apply Start_invariant. exact Hs1. }
  destruct ev; [| exact Hdone | exact Hdone].
  revert Hinv. unfold lifecycle_invariant, update, Stop, Mining. simpl.
  intros (Hm & Hc & Hs & Hsync & Hw & Hworker).
  destruct (Z.gtb_spec (mining (miner s)) 0) as [Hpos | Hnonpos]; simpl.
  - rewrite worker_started_snoc. repeat split; auto.
  - repeat split; auto; try (intros _; lia).
    rewrite <- Hw.
    destruct (Z.gtb_spec (mining (miner s)) 0); [lia | reflexivity].
Qed.

(** X10. Whatever [Start], [Stop] and downloader events follow [New], one
    after the other, the miner is never mining while the downloader is
    syncing ([canStart] is 0), its three flags stay 0 or 1, [Mining]
    agrees with the last [start] or [stop] call the worker received, and
    the worker's data is not touched. *)
Theorem lifecycle_invariant_holds (w : worker.t) (ops : list operation) :
  lifecycle_invariant w (run w ops).
Proof.
  unfold run. induction ops as [| o ops IH] using rev_ind.
  - apply New_invariant.
  - rewrite foldl_app. simpl.
    destruct o as [coinbase | | ev]; simpl.
    + apply Start_invariant. exact IH.
    + apply Stop_invariant. exact IH.
    + apply update_invariant. exact IH.
Qed.

(** Instance of X10: a start request during a sync leaves the miner idle. *)
Lemma lifecycle_invariant_holds_witness :
  mining (miner (run (worker.mk []) [do_event StartEvent; do_Start 7])) = 0.
Proof.
  apply (lifecycle_invariant_holds (worker.mk [])
           [do_event StartEvent; do_Start 7]).
  reflexivity.
Defined.

(** X11. How [Start], [Stop] and the downloader events compose.  [Start]
    while the downloader is syncing only records the request and the
    coinbase: the worker is not started.  The end of the sync (done or
    failed) then starts mining with that coinbase; after a [Stop] it
    starts nothing.  A sync that begins while the miner is mining stops it, and
    its end starts it again with the same coinbase. *)
Theorem sync_pause_resume :
  (forall s coinbase,
      canStart (miner s) = 0 ->
      mining (miner (Start s coinbase)) = mining (miner s)
      /\ shouldStart (miner (Start s coinbase)) = 1
      /\ Miner.coinbase (miner (Start s coinbase)) = coinbase
      /\ calls (Start s coinbase) = calls s ++ [call_setEtherbase coinbase])
  /\ (forall s coinbase,
        canStart (miner s) <> 0 ->
        Mining (Start s coinbase) = true
        /\ calls (Start s coinbase)
           = calls s ++ [call_setEtherbase coinbase; call_start;
                         call_commitNewWork])
  /\ (forall s coinbase ev,
        ev <> StartEvent ->
        canStart (miner s) = 0 ->
        Mining (update (Start s coinbase) ev) = true
        /\ Miner.coinbase (miner (update (Start s coinbase) ev)) = coinbase)
  /\ (forall s ev,
        ev <> StartEvent ->
        Mining (update (Stop s) ev) = false)
  /\ (forall s ev,
        ev <> StartEvent ->
        Mining s = true ->
        Mining (update s StartEvent) = false
        /\ Mining (update (update s StartEvent) ev) = true
        /\ Miner.coinbase (miner (update (update s StartEvent) ev))
           = Miner.coinbase (miner s)).
Proof.
  split; [| split; [| split; [| split]]].
  - intros s cb Hsync. unfold Start, SetEtherbase. simpl.
    rewrite Hsync. simpl. repeat split.
  - intros s cb Hcan. unfold Start, SetEtherbase, Mining. simpl.
    destruct (Z.eqb_spec (canStart (miner s)) 0) as [Hzero | _];
      [contradiction |].
    simpl. split; [reflexivity |]. rewrite <- app_assoc. reflexivity.
  - intros s cb ev Hev Hsync.
    assert (Hgoal : Mining (update (Start s cb) DoneEvent) = true
                    /\ Miner.coinbase (miner (update (Start s cb) DoneEvent)) = cb).
    { unfold update, Start, SetEtherbase, Mining. simpl.
      rewrite Hsync. simpl. split; reflexivity. }
    destruct ev; [contradiction | exact Hgoal | exact Hgoal].
  - intros s ev Hev.
    assert (Hgoal : Mining (update (Stop s) DoneEvent) = false)
      by reflexivity.
    destruct ev; [contradiction | exact Hgoal | exact Hgoal].
  - intros s ev Hev Hmining.
    assert (Hgoal : Mining (update s StartEvent) = false
                    /\ Mining (update (update s StartEvent) DoneEvent) = true
                    /\ Miner.coinbase
                         (miner (update (update s StartEvent) DoneEvent))
                       = Miner.coinbase (miner s)).
    { unfold Mining in Hmining.
      unfold update, Stop, Start, SetEtherbase, Mining. simpl.
      rewrite Hmining. simpl. repeat split. }
    destruct ev; [contradiction | exact Hgoal | exact Hgoal].
Qed.

(** Instance of X11: a miner started during a sync mines once the sync is
    done. *)
Lemma sync_pause_resume_witness :
  Mining (update (Start (update (New (worker.mk [])) StartEvent) 7) DoneEvent)
  = true.
Proof.
  apply (proj1 (proj2 (proj2 sync_pause_resume))
           (update (New (worker.mk [])) StartEvent) 7 DoneEvent).
  - discriminate.
  - reflexivity.
Defined.

End MinerLifecycleFacts.

(** ** The eth protocol tables *)

Module EthFacts.

Import Eth.

Lemma ProtocolVersions_cases (v : Z) :
  In v ProtocolVersions
  <-> v = 101 \/ v = 100 \/ v = 65 \/ v = 64 \/ v = 63.
Proof.
  unfold ProtocolVersions, xdpos22, xdpos2, eth65, eth64, eth63. simpl.
  intuition congruence.
Qed.

Lemma isEth63OrHigher_cases (v : Z) :
  isEth63OrHigher v = true
  <-> v = 101 \/ v = 100 \/ v = 65 \/ v = 64 \/ v = 63.
Proof.
  unfold isEth63OrHigher, isEth63, isEth64, isEth65.
  destruct (Z.eqb_spec v 63), (Z.eqb_spec v 100), (Z.eqb_spec v 64),
    (Z.eqb_spec v 65), (Z.eqb_spec v 101); simpl;
    split; intros Hv; try reflexivity; try discriminate Hv; lia.
Qed.

Lemma protocolLengths_cases (v : Z) :
  is_Some (protocolLengths !! v)
  <-> v = 101 \/ v = 100 \/ v = 65 \/ v = 64 \/ v = 63.
Proof.
  unfold protocolLengths, xdpos22, xdpos2, eth65, eth64, eth63.
  rewrite !lookup_insert, lookup_empty.
  repeat case_decide; subst; split; intros Hv;
    try (eexists; reflexivity); try lia;
    destruct Hv as [x Hx]; discriminate Hx.
Qed.

(** X12. The version tests agree with the table of supported versions: a
    version passes [isEth63OrHigher] iff it is one of [ProtocolVersions],
    and iff [protocolLengths] has a length for it; the three tests are
    nested ([isEth65OrHigher] implies [isEth64OrHigher] implies
    [isEth63OrHigher]), no version is of two generations, and the tests
    do not follow the order of the numbers: 100 is above 64 and is not
    [isEth64OrHigher]. *)
Theorem version_tests_agree (version : Z) :
  (isEth63OrHigher version = true <-> In version ProtocolVersions)
  /\ (In version ProtocolVersions <-> is_Some (protocolLengths !! version))
  /\ (isEth65OrHigher version = true -> isEth64OrHigher version = true)
  /\ (isEth64OrHigher version = true -> isEth63OrHigher version = true)
  /\ ~ (isEth63 version = true /\ isEth64 version = true)
  /\ ~ (isEth64 version = true /\ isEth65 version = true)
  /\ ~ (isEth63 version = true /\ isEth65 version = true)
  /\ (xdpos2 >= 64 /\ isEth64OrHigher xdpos2 = false
      /\ isEth63OrHigher xdpos2 = true).
Proof.
  split; [rewrite isEth63OrHigher_cases, ProtocolVersions_cases; tauto |].
  split; [rewrite protocolLengths_cases, ProtocolVersions_cases; tauto |].
  unfold isEth65OrHigher, isEth64OrHigher, isEth63OrHigher,
    isEth63, isEth64, isEth65.
  destruct (Z.eqb_spec version 63), (Z.eqb_spec version 100),
    (Z.eqb_spec version 64), (Z.eqb_spec version 65),
    (Z.eqb_spec version 101); simpl;
    repeat split; try reflexivity; try (intros Hv; exact Hv);
    try (intros [Hv1 Hv2]; discriminate);
    try (intros Hv; discriminate Hv); try lia.
Qed.

Lemma version_tests_agree_witness :
  isEth63OrHigher 101 = true.
Proof.
  apply (proj1 (version_tests_agree 101)).
  unfold ProtocolVersions. left. reflexivity.
Defined.

Lemma errorToString_None (e : Z) :
  ~ 0 <= e <= 8 -> errorToString !! e = None.
Proof.
  intros Hout.
  unfold errorToString, ErrMsgTooLarge, ErrDecode, ErrInvalidMsgCode,
    ErrProtocolVersionMismatch, ErrNetworkIDMismatch, ErrGenesisMismatch,
    ErrForkIDRejected, ErrNoStatusMsg, ErrExtraStatusMsg.
  rewrite !lookup_insert_ne by lia. apply lookup_empty.
Qed.

Lemma errCode_range (e : Z) :
  0 <= e <= 8 ->
  e = 0 \/ e = 1 \/ e = 2 \/ e = 3 \/ e = 4 \/ e = 5 \/ e = 6 \/ e = 7 \/ e = 8.
Proof. lia. Qed.

(** X13. [errCode.String] gives a non-empty text exactly for the nine
    codes 0 to 8 and the empty string for every other code, and different
    codes have different texts. *)
Theorem errCode_String_spec :
  (forall e, errCode_String e <> ""%string <-> 0 <= e <= 8)
  /\ (forall e1 e2,
        0 <= e1 <= 8 -> 0 <= e2 <= 8 ->
        errCode_String e1 = errCode_String e2 -> e1 = e2).
Proof.
  split.
  - intros e. split.
    + intros Hne.
      destruct (Z_le_dec 0 e) as [H0 |], (Z_le_dec e 8) as [H8 |];
        try (split; assumption);
        exfalso; apply Hne; unfold errCode_String;
        rewrite errorToString_None by lia; reflexivity.
    + intros Hin.
      destruct (errCode_range e Hin)
        as [-> | [-> | [-> | [-> | [-> | [-> | [-> | [-> | ->]]]]]]]];
        vm_compute; discriminate.
  - intros e1 e2 H1 H2.
    destruct (errCode_range e1 H1)
      as [-> | [-> | [-> | [-> | [-> | [-> | [-> | [-> | ->]]]]]]]];
      destruct (errCode_range e2 H2)
        as [-> | [-> | [-> | [-> | [-> | [-> | [-> | [-> | ->]]]]]]]];
      vm_compute; intros Heq; try reflexivity; discriminate Heq.
Qed.

Lemma errCode_String_spec_witness :
  errCode_String ErrGenesisMismatch <> ""%string.
Proof.
  apply (proj1 errCode_String_spec ErrGenesisMismatch).
  unfold ErrGenesisMismatch. lia.
Defined.

Lemma BitLen_le (x bits : Z) :
  0 <= bits -> (BitLen x <= bits <-> Z.abs x < 2 ^ bits).
Proof.
  intros Hbits. unfold BitLen.
  pose proof (Z.abs_nonneg x) as Hnn.
  destruct (Z.eqb_spec (Z.abs x) 0) as [Hzero | Hnonzero].
  - rewrite Hzero. split; [intros _; apply Z.pow_pos_nonneg; lia | lia].
  - rewrite (Z.log2_lt_pow2 (Z.abs x) bits) by lia. lia.
Qed.

(** X14. [sanityCheck] passes exactly when the block's own check passes
    and the total difficulty is below [2^100] in magnitude.  The block is
    checked first: its error is returned whatever the total difficulty,
    also a nil one, which makes the call panic only after the block has
    passed. *)
Theorem sanityCheck_spec (Block BlockError_t : Type)
    (Block_SanityCheck : Block -> option BlockError_t)
    (request : newBlockData Block) :
  (forall td,
      TD Block request = Some td ->
      (sanityCheck Block BlockError_t Block_SanityCheck request = Ok
       <-> Block_SanityCheck (Block_of Block request) = None
           /\ Z.abs td < 2 ^ 100))
  /\ (forall err,
        Block_SanityCheck (Block_of Block request) = Some err ->
        sanityCheck Block BlockError_t Block_SanityCheck request
        = Err (BlockError err))
  /\ (Block_SanityCheck (Block_of Block request) = None ->
      TD Block request = None ->
      sanityCheck Block BlockError_t Block_SanityCheck request = Panic).
Proof.
  unfold sanityCheck. split; [| split].
  - intros td ->.
    destruct (Block_SanityCheck (Block_of Block request)) as [err |].
    + split; [discriminate | intros [H _]; discriminate H].
    + rewrite <- (BitLen_le td 100) by lia.
      destruct (Z.gtb_spec (BitLen td) 100) as [Hgt | Hle].
      * split; [discriminate | intros [_ H]; lia].
      * split; [intros _; split; [reflexivity | exact Hle] | reflexivity].
  - intros err ->. reflexivity.
  - intros -> ->. reflexivity.
Qed.

(** Instance of X14: a total difficulty of 76 bits passes with a block
    that passes. *)
Lemma sanityCheck_spec_witness :
  sanityCheck unit unit (fun _ => None) (mk_newBlockData unit tt (Some (2 ^ 75)))
  = Ok.
Proof.
  apply (proj1 (sanityCheck_spec unit unit (fun _ => None)
                  (mk_newBlockData unit tt (Some (2 ^ 75))))
           (2 ^ 75) eq_refl).
  split; [reflexivity |]. vm_compute. reflexivity.
Defined.

End EthFacts.

(** ** The test peer pool *)

Module PeerPoolFacts.

Import PeerPool.

Section Pool.

Variable TestPeer : Type.
Variable ID : TestPeer -> N.

Lemma Has_Get (pool : gmap N TestPeer) (id : N) :
  Has TestPeer pool id = true <-> Get TestPeer pool id <> None.
Proof.
  unfold Has, Get. destruct (pool !! id); split; congruence.
Qed.

(** X15. A peer that was added is found under its id, by [Has] and by
    [Get]; adding it changes nothing for the other ids; a peer added under
    an id already in use replaces the one there; [Has] and a non-nil [Get]
    always agree; and a new pool has no peers. *)
Theorem Add_spec (pool : gmap N TestPeer) (p : TestPeer) :
  Has TestPeer (Add TestPeer ID pool p) (ID p) = true
  /\ Get TestPeer (Add TestPeer ID pool p) (ID p) = Some p
  /\ (forall id, id <> ID p ->
        Has TestPeer (Add TestPeer ID pool p) id = Has TestPeer pool id
        /\ Get TestPeer (Add TestPeer ID pool p) id = Get TestPeer pool id)
  /\ (forall q, ID q = ID p ->
        Add TestPeer ID (Add TestPeer ID pool q) p = Add TestPeer ID pool p)
  /\ (forall id, Has TestPeer pool id = true <-> Get TestPeer pool id <> None)
  /\ (forall id, Has TestPeer (NewTestPeerPool TestPeer) id = false).
Proof.
  unfold Add, Has, Get, NewTestPeerPool.
  split; [rewrite lookup_insert_eq; reflexivity |].
  split; [apply lookup_insert_eq |].
  split; [intros id Hid; rewrite lookup_insert_ne by congruence;
          split; reflexivity |].
  split; [intros q ->; apply insert_insert_eq |].
  split; [intros id; apply Has_Get |].
  intros id. rewrite lookup_empty. reflexivity.
Qed.

(** X16. [Remove] takes out whatever peer is registered under the id of
    its argument, be it another peer object: afterwards [Has] is false and
    [Get] is nil for that id, the other ids are as before; removing an id
    that is not in the pool changes nothing, and removing a peer right
    after adding it under a fresh id gives the pool back. *)
Theorem Remove_spec (pool : gmap N TestPeer) (p : TestPeer) :
  Has TestPeer (Remove TestPeer ID pool p) (ID p) = false
  /\ Get TestPeer (Remove TestPeer ID pool p) (ID p) = None
  /\ (forall id, id <> ID p ->
        Has TestPeer (Remove TestPeer ID pool p) id = Has TestPeer pool id
        /\ Get TestPeer (Remove TestPeer ID pool p) id = Get TestPeer pool id)
  /\ (forall q, ID q = ID p ->
        Remove TestPeer ID pool q = Remove TestPeer ID pool p)
  /\ (Has TestPeer pool (ID p) = false ->
      Remove TestPeer ID pool p = pool
      /\ Remove TestPeer ID (Add TestPeer ID pool p) p = pool).
Proof.
  unfold Remove, Add, Has, Get.
  split; [rewrite lookup_delete_eq; reflexivity |].
  split; [apply lookup_delete_eq |].
  split; [intros id Hid; rewrite lookup_delete_ne by congruence;
          split; reflexivity |].
  split; [intros q ->; reflexivity |].
  intros Hfree.
  assert (Hnone : pool !! ID p = None).
  { destruct (pool !! ID p); [discriminate Hfree | reflexivity]. }
  split; [apply delete_id; exact Hnone |].
  rewrite delete_insert_eq. apply delete_id. exact Hnone.
Qed.

End Pool.

(** Instance of X15 and X16, with numbers as peers, each its own id. *)
Lemma Add_spec_witness :
  Has N (Add N (fun p => p) (NewTestPeerPool N) 7%N) 3%N = false.
Proof.
  rewrite (proj1 (proj1 (proj2 (proj2 (Add_spec N (fun p => p)
             (NewTestPeerPool N) 7%N))) 3%N ltac:(discriminate))).
  reflexivity.
Defined.

Lemma Remove_spec_witness :
  Remove N (fun p => p) (Add N (fun p => p) (NewTestPeerPool N) 7%N) 7%N
  = NewTestPeerPool N.
Proof.
  apply (proj2 (proj2 (proj2 (proj2 (Remove_spec N (fun p => p)
           (NewTestPeerPool N) 7%N))))).
  reflexivity.
Defined.

End PeerPoolFacts.
